(** * denon: the supervision daemon ([src/daemon.ts])

    A shallow embedding of the [Daemon] class: the process registry
    [#processes], the command chain executor [start], [killAll], the exit
    monitor [monitor], the reload procedure [reload], the signal listener
    [onExit] and the asynchronous generator [iterate].

    The code is single-threaded and cooperative.  Every piece of code that
    runs between two suspension points ([await] of an external promise, or
    [yield]) is an atomic block; each block is a function on the [State]
    below.  Whatever the outside world decides (which status a process
    reports, which batch the watcher delivers, when the consumer pulls the
    next event, which signal arrives) is an [Action] fed to the system. *)

From stdpp Require Import gmap strings list fin_maps sorting.

Open Scope string_scope.
Open Scope list_scope.
Open Scope nat_scope.

(** ** Data *)

(** [Deno.Process.pid] is a JS number holding a process id. *)
Abbreviation Pid := N (only parsing).

(** The part of a [Deno.Process] handle the daemon touches: its process id
    and the resource id behind [close()]. *)
Record Process := { pid : Pid; rid : N }.

#[global] Instance Process_eq_dec : EqDecision Process.
Proof. solve_decision. Defined.

(** [Deno.ProcessStatus]; only [success] is read. *)
Record ProcessStatus := { success : bool }.

(** Values thrown by the platform operations. *)
Inductive DenoError := NotFound | BadResource | PermissionDenied.

(** How a promise settles. *)
Inductive Settled (A : Type) :=
| Resolved (a : A)
| Rejected (e : DenoError).
Arguments Resolved {A} a.
Arguments Rejected {A} e.

(** How a synchronous call completes. *)
Inductive Completion (A : Type) :=
| Normal (a : A)
| Throw (e : DenoError).
Arguments Normal {A} a.
Arguments Throw {A} e.

(** Modelled from the spec: the declaration of [ScriptOptions]
    ([src/scripts.ts]) is not part of the sources.  [watch] is an optional
    boolean ([start] returns the empty object for an empty chain); the other
    options pass through the daemon untouched and are kept as an opaque
    list of names. *)
Record ScriptOptions := { watch : option bool; passthrough : list string }.

(** The object literal [{}]. *)
Definition empty_options : ScriptOptions :=
  {| watch := None; passthrough := [] |}.

(** JS truthiness of [options.watch]. *)
Definition truthy (b : option bool) : bool :=
  match b with Some true => true | _ => false end.

(** A command of the chain.  [exe] is the spawn capability; the model names
    the handle that invoking it returns. *)
Record Command := {
  cmd : list string;
  exe : Process;
  options : ScriptOptions
}.

(** Modelled from the spec: the declaration of the watcher's change records
    is not part of the sources.  A record carries a classification [type]
    holding tags such as "modify"; [type.includes("modify")] is membership. *)
Record FileEvent := { path : string; type : list string }.

Abbreviation ChangeBatch := (list FileEvent) (only parsing).

Definition includes (tags : list string) (tag : string) : bool :=
  bool_decide (tag ∈ tags).

(** [DenonEvent], the events of the stream. *)
Inductive DenonEvent :=
| EvStart
| EvReload (change : ChangeBatch)
| EvExit.

Inductive Signal := SIGHUP | SIGINT | SIGTERM | SIGTSTP | SIGKILL.

#[global] Instance Signal_eq_dec : EqDecision Signal.
Proof. solve_decision. Defined.

Inductive OS := Windows | Linux | Darwin.

#[global] Instance OS_eq_dec : EqDecision OS.
Proof. solve_decision. Defined.

(** The platform: [Deno.build.os], [Deno.Process.close] and [Deno.kill].
    Both termination primitives may throw. *)
Record Platform := {
  build_os : OS;
  close : Process → Completion unit;
  kill : Pid → Signal → Completion unit
}.

(** The part of [CompleteDenonConfig] that [reload] reads. *)
Record LoggerConfig := { fullscreen : bool }.
Record WatcherConfig := {
  match_ : option (list string);
  exts : option (list string)
}.
Record CompleteDenonConfig := {
  logger : option LoggerConfig;
  watcher : WatcherConfig
}.

(** The [Denon] instance as the daemon uses it.  [runner_build script n] is
    what the [n]-th call of [runner.build(script)] returns: the chain is
    rebuilt by every call and may differ between calls. *)
Record Denon := {
  runner_build : string → nat → list Command;
  config : CompleteDenonConfig
}.

(** The immutable fields of a [Daemon]; the mutable [#processes] lives in
    [State]. *)
Record Daemon := { denon : Denon; script : string }.

(** ** Observable effects *)

Inductive Level := Debug | Info | Warning | Error.

(** A log message: a template literal with its interpolated value. *)
Inductive Msg :=
| Lit (s : string)
| WithPid (pre : string) (p : Pid)
| WithPidPost (pre : string) (p : Pid) (post : string)
| WithNum (pre : string) (n : nat) (post : string)
| WithWords (pre : string) (ws : list string) (sep : string) (post : string)
| WithJoin (pre : string) (ws : list string) (sep : string).

Inductive Effect :=
| ELog (l : Level) (m : Msg)
| EClear                                  (* console.clear() *)
| EBuild (script : string)                (* runner.build(script) *)
| ESpawn (c : Command)                    (* command.exe() *)
| EAwaitStatus (p : Process)              (* suspended on p.status() *)
| ESettled (p : Process) (r : Settled ProcessStatus)
| EClose (p : Process)                    (* p.close() *)
| EKill (p : Pid) (s : Signal)            (* Deno.kill(p, s) *)
| EListen (s : Signal)                    (* suspended on Deno.signal(s) *)
| EExit (code : N)                        (* Deno.exit(code) *)
| EUncaught (e : DenoError)               (* a detached task rejected *)
| EWatcherNext                            (* next() on the change feed *)
| EYield (ev : DenonEvent)                (* next() resolves with a value *)
| EDone                                   (* next() resolves with done *)
| ERaise (e : DenoError).                 (* next() rejects *)

#[global] Instance DenoError_eq_dec : EqDecision DenoError.
Proof. solve_decision. Defined.
#[global] Instance ProcessStatus_eq_dec : EqDecision ProcessStatus.
Proof. solve_decision. Defined.
#[global] Instance Settled_eq_dec `{EqDecision A} : EqDecision (Settled A).
Proof. solve_decision. Defined.
#[global] Instance ScriptOptions_eq_dec : EqDecision ScriptOptions.
Proof. solve_decision. Defined.
#[global] Instance Command_eq_dec : EqDecision Command.
Proof. solve_decision. Defined.
#[global] Instance FileEvent_eq_dec : EqDecision FileEvent.
Proof. solve_decision. Defined.
#[global] Instance DenonEvent_eq_dec : EqDecision DenonEvent.
Proof. solve_decision. Defined.
#[global] Instance Level_eq_dec : EqDecision Level.
Proof. solve_decision. Defined.
#[global] Instance Msg_eq_dec : EqDecision Msg.
Proof. solve_decision. Defined.
#[global] Instance Effect_eq_dec : EqDecision Effect.
Proof. solve_decision. Defined.

(** ** State *)

Record State := {
  processes : gmap N Process;                   (* #processes *)
  build_calls : nat;                            (* calls of runner.build *)
  monitors : list (Process * ScriptOptions);    (* monitor tasks suspended *)
  listeners : list Signal;                      (* signal tasks suspended *)
  halted : bool;                                (* Deno.exit was called *)
  trace : list Effect                           (* effects, oldest first *)
}.

Definition initial : State :=
  {| processes := ∅; build_calls := 0; monitors := []; listeners := [];
     halted := false; trace := [] |}.

Definition set_processes (m : gmap N Process) (st : State) : State :=
  {| processes := m; build_calls := build_calls st; monitors := monitors st;
     listeners := listeners st; halted := halted st; trace := trace st |}.

Definition set_build_calls (n : nat) (st : State) : State :=
  {| processes := processes st; build_calls := n; monitors := monitors st;
     listeners := listeners st; halted := halted st; trace := trace st |}.

Definition set_monitors (l : list (Process * ScriptOptions)) (st : State) : State :=
  {| processes := processes st; build_calls := build_calls st; monitors := l;
     listeners := listeners st; halted := halted st; trace := trace st |}.

Definition set_listeners (l : list Signal) (st : State) : State :=
  {| processes := processes st; build_calls := build_calls st;
     monitors := monitors st; listeners := l; halted := halted st;
     trace := trace st |}.

Definition set_halted (b : bool) (st : State) : State :=
  {| processes := processes st; build_calls := build_calls st;
     monitors := monitors st; listeners := listeners st; halted := b;
     trace := trace st |}.

Definition emit (e : Effect) (st : State) : State :=
  {| processes := processes st; build_calls := build_calls st;
     monitors := monitors st; listeners := listeners st; halted := halted st;
     trace := trace st ++ [e] |}.

Definition log (l : Level) (m : Msg) : State → State := emit (ELog l m).

(** A call that cannot throw, seen as one that may. *)
Definition normal {A : Type} (r : A * State) : Completion A * State :=
  (Normal r.1, r.2).

(** ** The registry as a JS object *)

(** [for (let id in o)] over an object whose keys are process ids visits
    the keys in ascending numeric order. *)
Definition key_le (a b : N * Process) : Prop := (a.1 ≤ b.1)%N.

#[global] Instance key_le_dec : RelDecision key_le.
Proof. intros a b. unfold key_le. apply _. Defined.

Definition for_in (o : gmap N Process) : list (N * Process) :=
  merge_sort key_le (map_to_list o).

(** ** killAll *)

Section Daemon.
Context (deno : Platform) (d : Daemon).

(** One turn of the [for ... in] loop body: the termination request. *)
Definition terminate (p : Process) (st : State) : Completion unit * State :=
  if decide (build_os deno = Windows) then
    let st := log Debug (WithPid "K: closing (windows) process with pid " (pid p)) st in
    (close deno p, emit (EClose p) st)
  else
    let st := log Debug (WithPid "K: killing (unix) process with pid " (pid p)) st in
    (kill deno (pid p) SIGKILL, emit (EKill (pid p) SIGKILL) st).

Fixpoint kill_loop (pcopy : list (N * Process)) (st : State) : Completion unit * State :=
  match pcopy with
  | [] => (Normal (), st)
  | (_, p) :: rest =>
      match terminate p st with
      | (Normal _, st) => kill_loop rest st
      | (Throw e, st) => (Throw e, st)
      end
  end.

Definition killAll (st : State) : Completion unit * State :=
  let st := log Debug (WithNum "K: killing " (size (processes st)) " process[es]") st in
  let pcopy := processes st in
  let st := set_processes ∅ st in
  kill_loop (for_in pcopy) st.

(** ** monitor *)

(** [monitor] up to its [await process.status()]: the task is parked. *)
Definition monitor (process : Process) (options : ScriptOptions) (st : State) : State :=
  let st := log Debug (WithPid "M: monitoring status of process with pid " (pid process)) st in
  let st := emit (EAwaitStatus process) st in
  set_monitors (monitors st ++ [(process, options)]) st.

Definition log_exit (s : ProcessStatus) (options : ScriptOptions) : State → State :=
  if success s then
    if truthy (watch options) then
      log Info (Lit "clean exit - waiting for changes before restart")
    else
      log Info (Lit "clean exit - denon is exiting ...")
  else
    if truthy (watch options) then
      log Error (Lit "app crashed - waiting for file changes before starting ...")
    else
      log Error (Lit "app crashed - denon is exiting ...").

(** [monitor] from the moment the awaited status settles.  A rejection is
    caught: [s] stays [undefined]. *)
Definition monitor_resume (process : Process) (options : ScriptOptions)
    (r : Settled ProcessStatus) (st : State) : State :=
  let st := emit (ESettled process r) st in
  let s := match r with Resolved s => Some s | Rejected _ => None end in
  let st :=
    match r with
    | Resolved _ =>
        log Debug (WithPid "M: got status of process with pid " (pid process)) st
    | Rejected _ =>
        log Debug (WithPid "M: error getting status of process with pid " (pid process)) st
    end in
  match processes st !! pid process with
  | Some _ =>
      let st := log Debug (WithPidPost "M: process with pid " (pid process) " exited on its own") st in
      let st := set_processes (delete (pid process) (processes st)) st in
      match s with
      | Some s => log_exit s options st
      | None => st
      end
  | None =>
      log Debug (WithPidPost "M: process with pid " (pid process) " was killed") st
  end.

(** ** start *)

(** [start] either returns options or is suspended in iteration [i] of its
    loop on [await process.status()]. *)
Inductive StartOutcome :=
| Returned (o : ScriptOptions)
| Awaiting (commands : list Command) (i : nat) (process : Process).

(** The loop of [start] from the test [i < commands.length] of iteration
    [i] to the next suspension or return. *)
Definition start_iteration (commands : list Command) (i : nat) (st : State)
    : StartOutcome * State :=
  match commands !! i with
  | None => (Returned empty_options, st)
  | Some command =>
      let process := exe command in
      let st := emit (ESpawn command) st in
      let st := log Debug (WithPid "S: starting process with pid " (pid process)) st in
      if decide (i = length commands - 1) then
        let st := log Warning (WithWords "starting main `" (cmd command) " " "`") st in
        let st := set_processes (<[pid process := process]> (processes st)) st in
        let st := monitor process (options command) st in
        (Returned (options command), st)
      else
        let st := log Info (WithWords "starting sequential `" (cmd command) " " "`") st in
        (Awaiting commands i process, emit (EAwaitStatus process) st)
  end.

Definition start (st : State) : StartOutcome * State :=
  let commands := runner_build (denon d) (script d) (build_calls st) in
  let st := set_build_calls (S (build_calls st)) st in
  let st := emit (EBuild (script d)) st in
  start_iteration commands 0 st.

(** [start] from the moment the awaited status of a sequential command
    settles.  The status value is dropped; a rejection is not caught. *)
Definition start_resume (commands : list Command) (i : nat) (process : Process)
    (r : Settled ProcessStatus) (st : State) : Completion StartOutcome * State :=
  let st := emit (ESettled process r) st in
  match r with
  | Resolved _ => normal (start_iteration commands (S i) st)
  | Rejected e => (Throw e, st)
  end.

(** ** reload *)

(** [reload] up to the first suspension inside [await this.start()]. *)
Definition reload (st : State) : Completion StartOutcome * State :=
  let cfg := config (denon d) in
  let st :=
    match logger cfg with
    | Some l =>
        if fullscreen l then emit EClear (log Debug (Lit "clearing screen") st)
        else st
    | None => st
    end in
  let st :=
    match match_ (watcher cfg) with
    | Some m => log Info (WithJoin "watching path(s): " m " ") st
    | None => st
    end in
  let st :=
    match exts (watcher cfg) with
    | Some x => log Info (WithJoin "watching extensions: " x ",") st
    | None => st
    end in
  let st := log Info (Lit "restarting due to changes...") st in
  match killAll st with
  | (Normal _, st) => normal (start st)
  | (Throw e, st) => (Throw e, st)
  end.

(** ** onExit *)

Definition signs : list Signal := [SIGHUP; SIGINT; SIGTERM; SIGTSTP].

Definition listen (st : State) (s : Signal) : State :=
  set_listeners (listeners st ++ [s]) (emit (EListen s) st).

Definition onExit (st : State) : State :=
  if decide (build_os deno ≠ Windows) then foldl listen st signs else st.

(** A signal task from the moment its signal arrives.  When [killAll]
    throws, the task rejects and [Deno.exit] is not reached. *)
Definition signal_resume (st : State) : State :=
  match killAll st with
  | (Normal _, st) => set_halted true (emit (EExit 0) st)
  | (Throw e, st) => emit (EUncaught e) st
  end.

End Daemon.

(** ** iterate: the generator as a state machine *)

(** Who is waiting for [start()] to return. *)
Inductive Caller := FromIterate | FromReload.

(** Where a generator made by [iterate()] is suspended. *)
Inductive GenState :=
| GInit                        (* created, body not entered *)
| GYieldedStart                (* at [yield {type: "start"}] *)
| GAwaitStatus (k : Caller) (commands : list Command) (i : nat) (process : Process)
                               (* inside [start()], on a sequential status *)
| GAwaitWatcher                (* in [for await], on the watcher's next() *)
| GYieldedReload               (* at [yield {type: "reload", ...}] *)
| GYieldedExit                 (* at [yield {type: "exit"}] *)
| GDone.                       (* returned or threw *)

Section Generator.
Context (deno : Platform) (d : Daemon).

(** The [for await] asks the watcher for its next batch. *)
Definition watcher_next (st : State) : GenState * State :=
  (GAwaitWatcher, emit EWatcherNext st).

Definition yield_exit (st : State) : GenState * State :=
  (GYieldedExit, emit (EYield EvExit) st).

(** The code that follows [await this.start()] once [start] has returned:
    in [iterate] the rest of the body, in [reload] the return to the
    [for await] loop (the options are dropped there). *)
Definition after_start (k : Caller) (options : ScriptOptions) (st : State)
    : GenState * State :=
  match k with
  | FromIterate =>
      let st := onExit deno st in
      if truthy (watch options) then watcher_next st else yield_exit st
  | FromReload => watcher_next st
  end.

Definition continue_start (k : Caller) (r : Completion StartOutcome * State)
    : GenState * State :=
  match r with
  | (Normal (Returned o), st) => after_start k o st
  | (Normal (Awaiting commands i process), st) =>
      (GAwaitStatus k commands i process, st)
  | (Throw e, st) => (GDone, emit (ERaise e) st)
  end.

(** The consumer calls [next()] on a generator suspended at a [yield] (or
    not yet started, or finished).  A call made while the generator is
    running would be queued; the consumer of the model does not make one. *)
Definition gen_next (g : GenState) (st : State) : GenState * State :=
  match g with
  | GInit => (GYieldedStart, emit (EYield EvStart) st)
  | GYieldedStart => continue_start FromIterate (normal (start d st))
  | GYieldedReload => continue_start FromReload (reload deno d st)
  | GYieldedExit => (GDone, emit EDone st)
  | GDone => (GDone, emit EDone st)
  | GAwaitStatus _ _ _ _ | GAwaitWatcher => (g, st)
  end.

(** The status awaited inside [start()] settles. *)
Definition gen_status (r : Settled ProcessStatus) (g : GenState) (st : State)
    : GenState * State :=
  match g with
  | GAwaitStatus k commands i process =>
      continue_start k (start_resume commands i process r st)
  | _ => (g, st)
  end.

Definition qualifies (watchE : ChangeBatch) : bool :=
  existsb (λ e, includes (type e) "modify") watchE.

(** The watcher's [next()] settles: with a batch, or with the end of the
    feed. *)
Definition gen_feed (b : option ChangeBatch) (g : GenState) (st : State)
    : GenState * State :=
  match g with
  | GAwaitWatcher =>
      match b with
      | Some watchE =>
          if qualifies watchE then
            let st := log Debug (Lit "R: reload event detected, starting the reload procedure...") st in
            (GYieldedReload, emit (EYield (EvReload watchE)) st)
          else watcher_next st
      | None => yield_exit st
      end
  | _ => (g, st)
  end.

(** [[Symbol.asyncIterator]()] returns [this.iterate()]: a new generator
    object on every call. *)
Definition asyncIterator : GenState := GInit.

(** ** The system: one daemon, one generator, and the outside world *)

Record Sys := { gen : GenState; st : State }.

Inductive Action :=
| ANext                                              (* consumer: next() *)
| AStatus (r : Settled ProcessStatus)                (* sequential status *)
| AFeed (b : option ChangeBatch)                     (* watcher delivers *)
| AMonitor (p : Process) (r : Settled ProcessStatus) (* main status *)
| ASignal (s : Signal).                              (* OS signal *)

(** The first parked monitor task of handle [p], taken out of the list. *)
Fixpoint take_monitor (p : Process) (l : list (Process * ScriptOptions))
    : option (ScriptOptions * list (Process * ScriptOptions)) :=
  match l with
  | [] => None
  | (q, o) :: l' =>
      if decide (q = p) then Some (o, l')
      else
        match take_monitor p l' with
        | Some (o', l'') => Some (o', (q, o) :: l'')
        | None => None
        end
  end.

Fixpoint take_listener (s : Signal) (l : list Signal) : option (list Signal) :=
  match l with
  | [] => None
  | s' :: l' =>
      if decide (s' = s) then Some l'
      else match take_listener s l' with
           | Some l'' => Some (s' :: l'')
           | None => None
           end
  end.

Definition lift (r : GenState * State) : Sys := {| gen := r.1; st := r.2 |}.

(** One action of the outside world.  An action nobody waits for is not a
    step of the daemon and leaves the state as it is; after [Deno.exit]
    nothing runs.  [ASignal sg] is the delivery of [sg] to the signal task
    of the daemon that waits for it.  A signal that no task waits for runs
    no block of the daemon: the host alone disposes of it, and where it
    ends the process the run is the schedule up to that signal.  So every
    run of the process is a run of some schedule, and a schedule with an
    unheard signal says nothing about what the host does with it. *)
Definition fire (a : Action) (s : Sys) : Sys :=
  if halted (st s) then s else
  match a with
  | ANext => lift (gen_next (gen s) (st s))
  | AStatus r => lift (gen_status r (gen s) (st s))
  | AFeed b => lift (gen_feed b (gen s) (st s))
  | AMonitor p r =>
      match take_monitor p (monitors (st s)) with
      | Some (o, l) =>
          {| gen := gen s;
             st := monitor_resume p o r (set_monitors l (st s)) |}
      | None => s
      end
  | ASignal sg =>
      match take_listener sg (listeners (st s)) with
      | Some l =>
          {| gen := gen s;
             st := signal_resume deno (set_listeners l (st s)) |}
      | None => s
      end
  end.

Definition run (sched : list Action) (s : Sys) : Sys := foldl (λ s a, fire a s) s sched.

(** A new daemon and the generator of its first iteration. *)
Definition boot : Sys := {| gen := asyncIterator; st := initial |}.

End Generator.

(** The events a trace delivered to the consumer. *)
Definition yielded (e : Effect) : option DenonEvent :=
  match e with EYield ev => Some ev | _ => None end.

Definition events (t : list Effect) : list DenonEvent := omap yielded t.

(** How often the change feed was asked for a batch. *)
Definition is_watcher_next (e : Effect) : bool :=
  match e with EWatcherNext => true | _ => false end.

Definition feed_pulls (t : list Effect) : nat := length (filter is_watcher_next t).

Arguments events : simpl never.
Arguments feed_pulls : simpl never.

(** ** Scenarios *)

Definition unix : Platform :=
  {| build_os := Linux; close := λ _, Normal (); kill := λ _ _, Normal () |}.

Definition no_config : CompleteDenonConfig :=
  {| logger := None; watcher := {| match_ := None; exts := None |} |}.

Definition watching : ScriptOptions := {| watch := Some true; passthrough := [] |}.
Definition once : ScriptOptions := {| watch := Some false; passthrough := [] |}.

(** Chain [echo setup; sleep 100]; every build spawns fresh processes. *)
Definition chainA (n : nat) : list Command :=
  [ {| cmd := ["echo"; "setup"]; exe := {| pid := 100 + 2 * N.of_nat n; rid := 3 + 2 * N.of_nat n |};
       options := watching |};
    {| cmd := ["sleep"; "100"]; exe := {| pid := 101 + 2 * N.of_nat n; rid := 4 + 2 * N.of_nat n |};
       options := watching |} ].

Definition daemonA : Daemon :=
  {| denon := {| runner_build := λ _ n, chainA n; config := no_config |};
     script := "serve" |}.

Definition modify_batch : list FileEvent := [ {| path := "a.ts"; type := ["modify"] |} ].
Definition access_batch : list FileEvent := [ {| path := "a.ts"; type := ["access"] |} ].

Definition ok : Settled ProcessStatus := Resolved {| success := true |}.
Definition failed : Settled ProcessStatus := Resolved {| success := false |}.

(** Scenario B: the chain is the single command [exit 1], not watching. *)
Definition chainB : list Command :=
  [ {| cmd := ["exit"; "1"]; exe := {| pid := 200; rid := 3 |}; options := once |} ].

Definition daemonB : Daemon :=
  {| denon := {| runner_build := λ _ _, chainB; config := no_config |};
     script := "fail" |}.

(** A chain that watches when first built and does not when rebuilt. *)
Definition daemonD : Daemon :=
  {| denon :=
       {| runner_build := λ _ n,
            [ {| cmd := ["serve"]; exe := {| pid := 300 + N.of_nat n; rid := 3 + N.of_nat n |};
                 options := if decide (n = 0) then watching else once |} ];
          config := no_config |};
     script := "dev" |}.

(** ** Reading a trace *)

(** The process a termination request is aimed at. *)
Definition termination_target (e : Effect) : option Pid :=
  match e with
  | EClose p => Some (pid p)
  | EKill p _ => Some p
  | _ => None
  end.

Definition terminated (t : list Effect) : list Pid := omap termination_target t.

(** What one turn of the loop of [killAll] leaves in the trace. *)
Definition termination_effects (deno : Platform) (p : Process) : list Effect :=
  if decide (build_os deno = Windows) then
    [ELog Debug (WithPid "K: closing (windows) process with pid " (pid p)); EClose p]
  else
    [ELog Debug (WithPid "K: killing (unix) process with pid " (pid p));
     EKill (pid p) SIGKILL].

(** What the platform answers to the termination request for [p]. *)
Definition answer (deno : Platform) (p : Process) : Completion unit :=
  if decide (build_os deno = Windows) then close deno p
  else kill deno (pid p) SIGKILL.

(** Every entry of the registry sits under the pid of its handle, as
    [start] stores it. *)
Definition keyed_by_pid (o : gmap N Process) : Prop :=
  ∀ k p, o !! k = Some p → pid p = k.

(** ** The vocabulary of the properties *)

(** The four exit messages, by [status.success] and [options.watch]. *)
Definition exit_message (success watch : bool) : Effect :=
  match success, watch with
  | true, true => ELog Info (Lit "clean exit - waiting for changes before restart")
  | true, false => ELog Info (Lit "clean exit - denon is exiting ...")
  | false, true => ELog Error (Lit "app crashed - waiting for file changes before starting ...")
  | false, false => ELog Error (Lit "app crashed - denon is exiting ...")
  end.

Definition exited_on_its_own (p : Pid) : Effect :=
  ELog Debug (WithPidPost "M: process with pid " p " exited on its own").

Definition was_killed (p : Pid) : Effect :=
  ELog Debug (WithPidPost "M: process with pid " p " was killed").

Definition status_line (process : Process) (r : Settled ProcessStatus) : Effect :=
  match r with
  | Resolved _ => ELog Debug (WithPid "M: got status of process with pid " (pid process))
  | Rejected _ => ELog Debug (WithPid "M: error getting status of process with pid " (pid process))
  end.

(** What the monitor concludes about a process whose status settled. *)
Inductive Verdict := ExitedOnItsOwn | KilledExternally.

(** The verdict a line of the trace pronounces on pid [p]. *)
Definition verdict (p : Pid) (e : Effect) : option Verdict :=
  if decide (e = exited_on_its_own p) then Some ExitedOnItsOwn
  else if decide (e = was_killed p) then Some KilledExternally
  else None.

Definition verdicts (p : Pid) (t : list Effect) : list Verdict := omap (verdict p) t.

(** [start] driven through its suspensions: each status of the list settles
    the await the call is suspended on. *)
Fixpoint settle (rs : list (Settled ProcessStatus))
    (r : Completion StartOutcome * State) : Completion StartOutcome * State :=
  match rs with
  | [] => r
  | x :: rs' =>
      match r with
      | (Normal (Awaiting commands i process), st) =>
          settle rs' (start_resume commands i process x st)
      | _ => r
      end
  end.

(** What [start] leaves in the trace for a command that is not the last,
    up to and including its suspension. *)
Definition sequential_effects (c : Command) : list Effect :=
  [ESpawn c;
   ELog Debug (WithPid "S: starting process with pid " (pid (exe c)));
   ELog Info (WithWords "starting sequential `" (cmd c) " " "`");
   EAwaitStatus (exe c)].

(** What [start] leaves in the trace for the last command. *)
Definition main_effects (c : Command) : list Effect :=
  [ESpawn c;
   ELog Debug (WithPid "S: starting process with pid " (pid (exe c)));
   ELog Warning (WithWords "starting main `" (cmd c) " " "`");
   ELog Debug (WithPid "M: monitoring status of process with pid " (pid (exe c)));
   EAwaitStatus (exe c)].

(** The options of the last command, [{}] for an empty chain. *)
Definition main_options (commands : list Command) : ScriptOptions :=
  match last commands with
  | Some c => options c
  | None => empty_options
  end.

(** [s'] continues the trace of [s] without an event for the consumer and
    without a pull on the change feed. *)
Definition quietly (s s' : State) : Prop :=
  ∃ new, trace s' = trace s ++ new ∧ events new = [] ∧ feed_pulls new = 0.

(** The generator is before or inside the first part of a chain execution:
    nothing is registered yet. *)
Definition starting (g : GenState) : Prop :=
  match g with
  | GInit | GYieldedStart | GAwaitStatus _ _ _ _ => True
  | _ => False
  end.

(** The generator is suspended inside [start] on a sequential status. *)
Definition awaiting_status (g : GenState) : Prop :=
  match g with GAwaitStatus _ _ _ _ => True | _ => False end.

(** The generator is inside [for await]: waiting for a batch, suspended at
    a [reload] event, or inside the [start] of a reload. *)
Definition in_watch_loop (g : GenState) : Prop :=
  match g with
  | GAwaitWatcher | GYieldedReload | GAwaitStatus FromReload _ _ _ => True
  | _ => False
  end.

(** The registry holds at most one entry, and none while a chain is still
    on its way to its main command. *)
Definition tidy (s : Sys) : Prop :=
  size (processes (st s)) ≤ 1
  ∧ (starting (gen s) → processes (st s) = ∅).

(** Where the generator of a chain that does not watch can be, and what it
    has delivered there. *)
Definition no_watch_inv (d : Daemon) (s : Sys) : Prop :=
  feed_pulls (trace (st s)) = 0
  ∧ match gen s with
    | GInit => events (trace (st s)) = [] ∧ build_calls (st s) = 0
    | GYieldedStart => events (trace (st s)) = [EvStart] ∧ build_calls (st s) = 0
    | GAwaitStatus FromIterate commands i _ =>
        events (trace (st s)) = [EvStart]
        ∧ commands = runner_build (denon d) (script d) 0
        ∧ S i < length commands
    | GYieldedExit => events (trace (st s)) = [EvStart; EvExit]
    | GDone =>
        events (trace (st s)) = [EvStart; EvExit]
        ∨ (events (trace (st s)) = [EvStart] ∧ ∃ e, ERaise e ∈ trace (st s))
    | _ => False
    end.

(** What [reload] logs before it calls [killAll]. *)
Definition reload_banner (cfg : CompleteDenonConfig) : list Effect :=
  match logger cfg with
  | Some l =>
      if fullscreen l then [ELog Debug (Lit "clearing screen"); EClear] else []
  | None => []
  end
  ++ match match_ (watcher cfg) with
     | Some m => [ELog Info (WithJoin "watching path(s): " m " ")]
     | None => []
     end
  ++ match exts (watcher cfg) with
     | Some x => [ELog Info (WithJoin "watching extensions: " x ",")]
     | None => []
     end
  ++ [ELog Info (Lit "restarting due to changes...")].

(** The state in which [reload] calls [killAll]. *)
Definition announced (cfg : CompleteDenonConfig) (s : State) : State :=
  {| processes := processes s; build_calls := build_calls s;
     monitors := monitors s; listeners := listeners s; halted := halted s;
     trace := trace s ++ reload_banner cfg |}.

(** How many [start] events a trace delivered. *)
Definition starts (t : list Effect) : nat :=
  length (filter (λ ev, ev = EvStart) (events t)).

(** The termination request [killAll] issues for handle [p]. *)
Definition request_effect (deno : Platform) (p : Process) : Effect :=
  if decide (build_os deno = Windows) then EClose p else EKill (pid p) SIGKILL.

(** The termination requests of a trace, as issued. *)
Definition request (e : Effect) : option Effect :=
  match e with
  | EClose _ | EKill _ _ => Some e
  | _ => None
  end.

Definition requests (t : list Effect) : list Effect := omap request t.

(** The commands a trace spawned, in order. *)
Definition spawn (e : Effect) : option Command :=
  match e with ESpawn c => Some c | _ => None end.

Definition spawned (t : list Effect) : list Command := omap spawn t.

(** The generator has not yet come back from the first [start()]. *)
Definition early (g : GenState) : Prop :=
  match g with
  | GInit | GYieldedStart | GAwaitStatus FromIterate _ _ _ => True
  | _ => False
  end.

(** Every handle of the registry has a monitor suspended on its status. *)
Definition monitored (s : State) : Prop :=
  ∀ k p, processes s !! k = Some p → ∃ o, (p, o) ∈ monitors s.

(** The registry as [start] and [monitor] keep it. *)
Definition supervised (s : State) : Prop :=
  keyed_by_pid (processes s) ∧ monitored s.

(** How many [start] and [reload] events a trace delivered. *)
Definition launches (t : list Effect) : nat :=
  length (filter (λ ev, ev ≠ EvExit) (events t)).

(** What one generator has delivered, by where it is suspended: [start],
    then one [reload] per batch of [bs], then possibly [exit]; and how often
    the chain was built. *)
Definition stream_inv (s : Sys) : Prop :=
  ∃ bs : list (list FileEvent),
    Forall (λ b, qualifies b = true) bs
    ∧ match gen s with
      | GInit => events (trace (st s)) = [] ∧ build_calls (st s) = 0
      | GYieldedStart => events (trace (st s)) = [EvStart] ∧ build_calls (st s) = 0
      | GAwaitStatus FromIterate _ _ _ =>
          events (trace (st s)) = [EvStart] ∧ build_calls (st s) = 1
      | GAwaitWatcher | GAwaitStatus FromReload _ _ _ =>
          events (trace (st s)) = EvStart :: map EvReload bs
          ∧ build_calls (st s) ≤ S (length bs)
      | GYieldedReload =>
          events (trace (st s)) = EvStart :: map EvReload bs
          ∧ build_calls (st s) ≤ length bs
      | GYieldedExit =>
          events (trace (st s)) = EvStart :: map EvReload bs ++ [EvExit]
          ∧ build_calls (st s) ≤ S (length bs)
      | GDone =>
          (events (trace (st s)) = EvStart :: map EvReload bs
           ∨ events (trace (st s)) = EvStart :: map EvReload bs ++ [EvExit])
          ∧ build_calls (st s) ≤ S (length bs)
      end.

(** A chain whose setup command number [length pre] fails to report. *)
Definition chainE : list Command :=
  [ {| cmd := ["echo"; "one"]; exe := {| pid := 400; rid := 3 |}; options := watching |};
    {| cmd := ["echo"; "two"]; exe := {| pid := 401; rid := 4 |}; options := watching |};
    {| cmd := ["sleep"; "100"]; exe := {| pid := 402; rid := 5 |}; options := watching |} ].

Definition daemonE : Daemon :=
  {| denon := {| runner_build := λ _ _, chainE; config := no_config |};
     script := "serve" |}.

(** No signal task is suspended and [Deno.exit] was not called, as long as
    the platform is Windows or the first [start()] has not returned. *)
Definition unarmed (deno : Platform) (s : Sys) : Prop :=
  build_os deno = Windows ∨ early (gen s) →
  listeners (st s) = [] ∧ halted (st s) = false.

(** A Windows platform whose [close] always returns. *)
Definition windows : Platform :=
  {| build_os := Windows; close := λ _, Normal (); kill := λ _ _, Normal () |}.

(** An action other than the arrival of a signal. *)
Definition no_signal (a : Action) : Prop :=
  match a with ASignal _ => False | _ => True end.

(** A trace delivered a [reload] event. *)
Definition reloaded (t : list Effect) : Prop := ∃ b, EvReload b ∈ events t.

(** A generator suspended at a [reload] event has delivered one, and
    without a [reload] event no termination was requested. *)
Definition kill_inv (s : Sys) : Prop :=
  (gen s = GYieldedReload → reloaded (trace (st s)))
  ∧ (¬ reloaded (trace (st s)) → terminated (trace (st s)) = []).

(** What makes [killAll] run: the consumer resuming a generator that is
    suspended at a [reload] event, or a signal that a signal task waits
    for. *)
Inductive Trigger := ByReload | BySignal (sg : Signal).

Definition trigger_action (t : Trigger) : Action :=
  match t with
  | ByReload => ANext
  | BySignal sg => ASignal sg
  end.

(** The trigger can fire in [s]. *)
Definition triggers (t : Trigger) (s : Sys) : Prop :=
  match t with
  | ByReload => gen s = GYieldedReload
  | BySignal sg => sg ∈ listeners (st s)
  end.

(** The batch an action hands to the [for await] loop: the one of a
    delivery made while the generator waits on the feed. *)
Definition consumes (a : Action) (s : Sys) : list (list FileEvent) :=
  match a, gen s, halted (st s) with
  | AFeed (Some b), GAwaitWatcher, false => [b]
  | _, _, _ => []
  end.

(** The batches a schedule hands to the [for await] loop, in order. *)
Fixpoint consumed (deno : Platform) (d : Daemon) (sched : list Action) (s : Sys)
    : list (list FileEvent) :=
  match sched with
  | [] => []
  | a :: sched' => consumes a s ++ consumed deno d sched' (fire deno d a s)
  end.

(** What one generator has delivered when the qualifying batches consumed
    so far are [bs]. *)
Definition stream_at (bs : list (list FileEvent)) (s : Sys) : Prop :=
  match gen s with
  | GInit => events (trace (st s)) = [] ∧ bs = []
  | GYieldedStart | GAwaitStatus FromIterate _ _ _ =>
      events (trace (st s)) = [EvStart] ∧ bs = []
  | GAwaitWatcher | GAwaitStatus FromReload _ _ _ | GYieldedReload =>
      events (trace (st s)) = EvStart :: map EvReload bs
  | GYieldedExit =>
      events (trace (st s)) = EvStart :: map EvReload bs ++ [EvExit]
  | GDone =>
      events (trace (st s)) = EvStart :: map EvReload bs
      ∨ events (trace (st s)) = EvStart :: map EvReload bs ++ [EvExit]
  end.

(** * Properties *)

(** ** killAll *)

Section KillAll.
Context (deno : Platform).

Lemma terminate_state p s :
  processes (terminate deno p s).2 = processes s
  ∧ trace (terminate deno p s).2 = trace s ++ termination_effects deno p
  ∧ build_calls (terminate deno p s).2 = build_calls s
  ∧ monitors (terminate deno p s).2 = monitors s
  ∧ listeners (terminate deno p s).2 = listeners s
  ∧ halted (terminate deno p s).2 = halted s.
Proof.
  unfold terminate, termination_effects.
  destruct (decide (build_os deno = Windows)); cbn;
    rewrite <- app_assoc; repeat split; reflexivity.
Qed.

Lemma terminate_result p s :
  (terminate deno p s).1 =
    if decide (build_os deno = Windows) then close deno p
    else kill deno (pid p) SIGKILL.
Proof. unfold terminate. by destruct (decide (build_os deno = Windows)). Qed.

Lemma kill_loop_processes l s :
  processes (kill_loop deno l s).2 = processes s.
Proof.
  revert s. induction l as [|[k p] l IH]; intros s; [done|].
  cbn [kill_loop].
  pose proof (terminate_state p s) as (Hp & _).
  destruct (terminate deno p s) as [[[]|e] s']; cbn in *.
  - by rewrite IH.
  - done.
Qed.

Lemma kill_loop_frame l s :
  build_calls (kill_loop deno l s).2 = build_calls s
  ∧ monitors (kill_loop deno l s).2 = monitors s
  ∧ listeners (kill_loop deno l s).2 = listeners s
  ∧ halted (kill_loop deno l s).2 = halted s.
Proof.
  revert s. induction l as [|[k p] l IH]; intros s; [done|].
  cbn [kill_loop].
  pose proof (terminate_state p s) as (_ & _ & Hb & Hm & Hl & Hh).
  destruct (terminate deno p s) as [[[]|e] s']; cbn in *.
  - destruct (IH s') as (-> & -> & -> & ->). auto.
  - auto.
Qed.

(** The loop serves the snapshot in order.  Either every request returns
    and the loop completes, or it stops at the first request that throws
    and throws the same value. *)
Lemma kill_loop_cases l s :
  (Forall (λ kp, answer deno kp.2 = Normal ()) l
   ∧ (kill_loop deno l s).1 = Normal ()
   ∧ trace (kill_loop deno l s).2
     = trace s ++ flat_map (λ kp, termination_effects deno kp.2) l)
  ∨ (∃ served k p rest e,
       l = served ++ (k, p) :: rest
       ∧ Forall (λ kp, answer deno kp.2 = Normal ()) served
       ∧ answer deno p = Throw e
       ∧ (kill_loop deno l s).1 = Throw e
       ∧ trace (kill_loop deno l s).2
         = trace s ++ flat_map (λ kp, termination_effects deno kp.2)
                        (served ++ [(k, p)])).
Proof.
  revert s. induction l as [|[k p] l IH]; intros s.
  - left. cbn. by rewrite app_nil_r.
  - cbn [kill_loop].
    pose proof (terminate_state p s) as (_ & Ht & _).
    pose proof (terminate_result p s) as Hr. fold (answer deno p) in Hr.
    destruct (terminate deno p s) as [[[]|e] s'] eqn:E; cbn in *.
    + destruct (IH s') as [(Hall & Hn & Htr)|(served & k' & p' & rest & e & -> & Hall & Ha & He & Htr)].
      * left. split; [by constructor|]. split; [done|].
        rewrite Htr, Ht. by rewrite <- app_assoc.
      * right. exists ((k, p) :: served), k', p', rest, e.
        split; [done|]. split; [by constructor|]. split; [done|]. split; [done|].
        rewrite Htr, Ht. cbn. by rewrite <- app_assoc.
    + right. exists [], k, p, l, e. cbn. rewrite app_nil_r. auto.
Qed.

Lemma kill_loop_trace l s :
  ∃ served rest,
    l = served ++ rest
    ∧ trace (kill_loop deno l s).2
      = trace s ++ flat_map (λ kp, termination_effects deno kp.2) served
    ∧ ((kill_loop deno l s).1 = Normal () → rest = []).
Proof.
  destruct (kill_loop_cases l s)
    as [(_ & Hn & Htr)|(served & k & p & rest & e & -> & _ & _ & He & Htr)].
  - exists l, []. by rewrite app_nil_r.
  - exists (served ++ [(k, p)]), rest. rewrite <- app_assoc. cbn.
    split; [done|]. split; [done|]. rewrite He. done.
Qed.

Lemma terminated_served (served : list (N * Process)) :
  terminated (flat_map (λ kp, termination_effects deno kp.2) served)
  = map (λ kp, pid kp.2) served.
Proof.
  induction served as [|[k p] l IH]; [done|].
  cbn [flat_map map]. unfold terminated in *. rewrite omap_app, IH.
  unfold termination_effects. by destruct (decide (build_os deno = Windows)).
Qed.

Lemma for_in_perm (o : gmap N Process) : for_in o ≡ₚ map_to_list o.
Proof. apply merge_sort_Permutation. Qed.

Lemma for_in_NoDup (o : gmap N Process) : NoDup (for_in o).*1.
Proof. rewrite for_in_perm. apply NoDup_fst_map_to_list. Qed.

Lemma for_in_lookup (o : gmap N Process) k p :
  (k, p) ∈ for_in o ↔ o !! k = Some p.
Proof. rewrite for_in_perm. apply elem_of_map_to_list. Qed.

Lemma for_in_pids (o : gmap N Process) :
  keyed_by_pid o → map (λ kp, pid kp.2) (for_in o) = (for_in o).*1.
Proof.
  intros Hk. apply map_ext_in. intros [k p] Hin.
  apply list_elem_of_In, for_in_lookup in Hin. cbn. eauto.
Qed.

Lemma killAll_unfold s :
  killAll deno s
  = kill_loop deno (for_in (processes s))
      (set_processes ∅
         (log Debug (WithNum "K: killing " (size (processes s)) " process[es]") s)).
Proof. reflexivity. Qed.

Lemma killAll_processes s : processes (killAll deno s).2 = ∅.
Proof. rewrite killAll_unfold. by rewrite kill_loop_processes. Qed.

Lemma killAll_frame s :
  build_calls (killAll deno s).2 = build_calls s
  ∧ monitors (killAll deno s).2 = monitors s
  ∧ listeners (killAll deno s).2 = listeners s
  ∧ halted (killAll deno s).2 = halted s.
Proof. rewrite killAll_unfold. by destruct (kill_loop_frame (for_in (processes s)) (set_processes ∅ (log Debug (WithNum "K: killing " (size (processes s)) " process[es]") s))) as (-> & -> & -> & ->). Qed.

(** C1. Whatever the registry holds, it is empty once [killAll] has run,
    whether the call returns or throws.  The registry is swapped for the
    empty object before the loop over the snapshot starts and the loop never
    writes to it, so every termination request is issued against an empty
    registry.  The loop walks the snapshot, whose keys are pairwise
    distinct, once and in order: the requests issued are those of a prefix
    of the snapshot, of all of it when the call returns, and under the
    keying of [start] no pid is asked to terminate twice. *)
Theorem killAll_clears_registry (s : State) :
  let r := killAll deno s in
  let snapshot := for_in (processes s) in
  let cleared :=
    set_processes ∅
      (log Debug (WithNum "K: killing " (size (processes s)) " process[es]") s) in
  processes r.2 = ∅
  ∧ r = kill_loop deno snapshot cleared
  ∧ processes cleared = ∅
  ∧ (∀ l s', processes (kill_loop deno l s').2 = processes s')
  ∧ NoDup snapshot.*1
  ∧ ∃ served rest new,
      snapshot = served ++ rest
      ∧ trace r.2 = trace s ++ new
      ∧ terminated new = map (λ kp, pid kp.2) served
      ∧ (r.1 = Normal () → rest = [])
      ∧ (keyed_by_pid (processes s) → NoDup (terminated new)).
Proof.
  cbv zeta. split; [apply killAll_processes|].
  split; [apply killAll_unfold|]. split; [done|].
  split; [apply kill_loop_processes|]. split; [apply for_in_NoDup|].
  rewrite killAll_unfold.
  set (c := set_processes _ _).
  destruct (kill_loop_trace (for_in (processes s)) c) as (served & rest & Hl & Ht & Hn).
  exists served, rest.
  exists (ELog Debug (WithNum "K: killing " (size (processes s)) " process[es]")
          :: flat_map (λ kp, termination_effects deno kp.2) served).
  split; [done|]. split.
  { rewrite Ht. subst c. cbn. by rewrite <- app_assoc. }
  assert (terminated
            (ELog Debug (WithNum "K: killing " (size (processes s)) " process[es]")
             :: flat_map (λ kp, termination_effects deno kp.2) served)
          = map (λ kp, pid kp.2) served) as Hreq
    by apply terminated_served.
  split; [done|]. split; [done|].
  intros Hk. rewrite Hreq.
  pose proof (for_in_pids _ Hk) as Hp. pose proof (for_in_NoDup (processes s)) as Hnd.
  rewrite Hl in Hp, Hnd. rewrite map_app, fmap_app in Hp.
  apply app_inj_1 in Hp as [Hp _]; [|by rewrite length_map, length_fmap].
  rewrite Hp. rewrite fmap_app in Hnd. by apply NoDup_app in Hnd as [? _].
Qed.

End KillAll.

(** C6 fails on the code: where [Deno.kill] answers a dead pid by throwing,
    [killAll] throws too (nothing around the request catches). *)
Lemma killAll_throws_on_dead_process :
  let strict := {| build_os := Linux; close := λ _, Normal ();
                   kill := λ p _, if decide (p = 7%N) then Throw NotFound else Normal () |} in
  let s := set_processes {[ 7%N := {| pid := 7; rid := 3 |} ]} initial in
  (killAll strict s).1 = Throw NotFound.
Proof. reflexivity. Qed.

(** C6, amended. [killAll] has no error handling of its own.  It returns
    normally exactly when the platform answers every termination request of
    the snapshot normally.  Otherwise it stops at the first handle, in the
    order of the loop, whose request throws, and throws that value; the
    handles after it receive no request.  In both cases the registry is
    already empty. *)
Theorem killAll_propagates_failure (deno : Platform) (s : State) :
  let r := killAll deno s in
  let snapshot := for_in (processes s) in
  processes r.2 = ∅
  ∧ (r.1 = Normal ()
     ↔ ∀ k p, processes s !! k = Some p → answer deno p = Normal ())
  ∧ ∀ e, r.1 = Throw e →
      ∃ served k p rest new,
        snapshot = served ++ (k, p) :: rest
        ∧ Forall (λ kp, answer deno kp.2 = Normal ()) served
        ∧ answer deno p = Throw e
        ∧ trace r.2 = trace s ++ new
        ∧ terminated new = map (λ kp, pid kp.2) (served ++ [(k, p)]).
Proof.
  cbv zeta. split; [apply killAll_processes|].
  rewrite killAll_unfold. set (c := set_processes _ _).
  destruct (kill_loop_cases deno (for_in (processes s)) c)
    as [(Hall & Hn & Htr)|(served & k & p & rest & e & Hl & Hall & Ha & He & Htr)].
  - split.
    + split; [|done]. intros _ k p Hkp.
      apply for_in_lookup in Hkp. rewrite Forall_forall in Hall.
      by apply (Hall (k, p)).
    + intros e He. rewrite Hn in He. discriminate.
  - split.
    + split.
      * intros Hn. rewrite He in Hn. discriminate.
      * intros Hok. assert (answer deno p = Normal ()) as Hp.
        { apply (Hok k). apply for_in_lookup. rewrite Hl. set_solver. }
        congruence.
    + intros e' He'. rewrite He in He'. injection He' as <-.
      exists served, k, p, rest.
      exists (ELog Debug (WithNum "K: killing " (size (processes s)) " process[es]")
              :: flat_map (λ kp, termination_effects deno kp.2) (served ++ [(k, p)])).
      split; [done|]. split; [done|]. split; [done|]. split.
      * rewrite Htr. subst c. cbn. by rewrite <- app_assoc.
      * apply (terminated_served deno).
Qed.

(** ** monitor *)

Lemma log_exit_state s o st :
  log_exit s o st = emit (exit_message (success s) (truthy (watch o))) st.
Proof. unfold log_exit. by destruct (success s), (truthy (watch o)). Qed.

(** C8. With a status in hand the monitor looks the pid up.  If the pid is
    in the registry the entry is removed and the trace gains, after the
    debug lines, exactly one of the four exit messages, the one that
    [(status.success, options.watch)] selects; the four messages are
    pairwise distinct.  If the pid is not in the registry the monitor logs
    that the process was killed and leaves the registry as it was.  Nothing
    else of the state changes in either case. *)
Theorem monitor_classifies_exit (process : Process) (options : ScriptOptions)
    (s : ProcessStatus) (st : State) :
  let st' := monitor_resume process options (Resolved s) st in
  let got := ELog Debug (WithPid "M: got status of process with pid " (pid process)) in
  match processes st !! pid process with
  | Some _ =>
      processes st' = delete (pid process) (processes st)
      ∧ trace st' = trace st ++
          [ESettled process (Resolved s); got; exited_on_its_own (pid process);
           exit_message (success s) (truthy (watch options))]
  | None =>
      processes st' = processes st
      ∧ trace st' = trace st ++
          [ESettled process (Resolved s); got; was_killed (pid process)]
  end
  ∧ NoDup [exit_message true true; exit_message true false;
           exit_message false true; exit_message false false]
  ∧ build_calls st' = build_calls st ∧ monitors st' = monitors st
  ∧ listeners st' = listeners st ∧ halted st' = halted st.
Proof.
  cbv zeta. unfold monitor_resume. cbn.
  destruct (processes st !! pid process) eqn:E; rewrite ?log_exit_state; cbn.
  - split; [split; [done|by rewrite <- !app_assoc]|].
    split; [|done]. apply (bool_decide_unpack _). by vm_compute.
  - split; [split; [done|by rewrite <- !app_assoc]|].
    split; [|done]. apply (bool_decide_unpack _). by vm_compute.
Qed.

(** C7 fails on the code: a status that cannot be retrieved does not stop
    the monitor from acting on the registry.  With pid 7 still registered,
    the monitor reports that the process exited on its own and removes the
    entry. *)
Lemma monitor_removes_after_failed_status :
  let p := {| pid := 7; rid := 3 |} in
  let st := set_processes {[ 7%N := p ]} initial in
  let st' := monitor_resume p watching (Rejected BadResource) st in
  processes st !! 7%N = Some p
  ∧ processes st' = ∅
  ∧ trace st' =
      [ESettled p (Rejected BadResource);
       ELog Debug (WithPid "M: error getting status of process with pid " 7);
       exited_on_its_own 7].
Proof. cbv zeta. split; [done|]. split; [|done]. by vm_compute. Qed.

(** C7, amended. A failed await is caught and logged at debug level; the
    monitor returns normally (it always yields a state, never an error).
    It then checks the registry just as after a successful await: a pid
    that is absent is reported as killed and nothing is mutated; a pid that
    is still present is reported as having exited on its own and its entry
    is removed, without any of the exit messages. *)
Theorem monitor_survives_failed_status (process : Process)
    (options : ScriptOptions) (e : DenoError) (st : State) :
  let st' := monitor_resume process options (Rejected e) st in
  let failed := ELog Debug (WithPid "M: error getting status of process with pid " (pid process)) in
  match processes st !! pid process with
  | Some _ =>
      processes st' = delete (pid process) (processes st)
      ∧ trace st' = trace st ++
          [ESettled process (Rejected e); failed; exited_on_its_own (pid process)]
  | None =>
      processes st' = processes st
      ∧ trace st' = trace st ++
          [ESettled process (Rejected e); failed; was_killed (pid process)]
  end
  ∧ build_calls st' = build_calls st ∧ monitors st' = monitors st
  ∧ listeners st' = listeners st ∧ halted st' = halted st.
Proof.
  cbv zeta. unfold monitor_resume. cbn.
  destruct (processes st !! pid process) eqn:E; cbn;
    (split; [split; [done|by rewrite <- !app_assoc]|done]).
Qed.

(** ** The race between a natural exit and killAll *)

Lemma monitor_resume_present process options r st q :
  processes st !! pid process = Some q →
  ∃ tail,
    trace (monitor_resume process options r st)
    = trace st ++ [ESettled process r; status_line process r;
                   exited_on_its_own (pid process)] ++ tail
    ∧ processes (monitor_resume process options r st)
      = delete (pid process) (processes st)
    ∧ verdicts (pid process) tail = [] ∧ terminated tail = [].
Proof.
  intros Hq. unfold monitor_resume.
  destruct r as [s|e]; cbn; rewrite Hq; cbn.
  - rewrite log_exit_state. cbn.
    exists [exit_message (success s) (truthy (watch options))].
    rewrite <- !app_assoc. cbn. split; [done|]. split; [done|].
    by destruct (success s), (truthy (watch options)).
  - exists []. rewrite <- !app_assoc. done.
Qed.

Lemma monitor_resume_absent process options r st :
  processes st !! pid process = None →
  trace (monitor_resume process options r st)
  = trace st ++ [ESettled process r; status_line process r; was_killed (pid process)]
  ∧ processes (monitor_resume process options r st) = processes st.
Proof.
  intros Hq. unfold monitor_resume.
  destruct r as [s|e]; cbn; rewrite Hq; cbn; by rewrite <- !app_assoc.
Qed.

Lemma verdict_exited p : verdict p (exited_on_its_own p) = Some ExitedOnItsOwn.
Proof. unfold verdict. by rewrite decide_True. Qed.

Lemma verdict_killed p : verdict p (was_killed p) = Some KilledExternally.
Proof. unfold verdict. rewrite decide_False by done. by rewrite decide_True. Qed.

Lemma verdict_status_line p process r : verdict p (status_line process r) = None.
Proof. unfold verdict. destruct r; cbn; by repeat case_decide. Qed.

Lemma verdicts_served deno p (served : list (N * Process)) :
  verdicts p (flat_map (λ kp, termination_effects deno kp.2) served) = [].
Proof.
  induction served as [|[k q] l IH]; [done|].
  cbn [flat_map]. unfold verdicts in *. rewrite omap_app, IH.
  unfold termination_effects.
  destruct (decide (build_os deno = Windows)); cbn; unfold verdict;
    by repeat case_decide.
Qed.

Lemma killAll_trace deno s :
  ∃ served rest,
    for_in (processes s) = served ++ rest
    ∧ trace (killAll deno s).2
      = trace s ++ ELog Debug (WithNum "K: killing " (size (processes s)) " process[es]")
                   :: flat_map (λ kp, termination_effects deno kp.2) served.
Proof.
  rewrite killAll_unfold. set (c := set_processes _ _).
  destruct (kill_loop_trace deno (for_in (processes s)) c) as (served & rest & Hl & Ht & _).
  exists served, rest. split; [done|]. rewrite Ht. subst c. cbn.
  by rewrite <- app_assoc.
Qed.

Lemma verdicts_app p a b : verdicts p (a ++ b) = verdicts p a ++ verdicts p b.
Proof. apply omap_app. Qed.

Lemma terminated_app a b : terminated (a ++ b) = terminated a ++ terminated b.
Proof. apply omap_app. Qed.

Lemma verdicts_monitor_present process r :
  verdicts (pid process)
    [ESettled process r; status_line process r; exited_on_its_own (pid process)]
  = [ExitedOnItsOwn].
Proof.
  unfold verdicts. cbn [omap list_omap].
  rewrite verdict_exited, verdict_status_line.
  unfold verdict. by rewrite !decide_False by done.
Qed.

Lemma verdicts_monitor_absent process r :
  verdicts (pid process)
    [ESettled process r; status_line process r; was_killed (pid process)]
  = [KilledExternally].
Proof.
  unfold verdicts. cbn [omap list_omap].
  rewrite verdict_killed, verdict_status_line.
  unfold verdict. by rewrite !decide_False by done.
Qed.

Lemma terminated_monitor process r line :
  termination_target line = None →
  terminated [ESettled process r; status_line process r; line] = [].
Proof. intros H. unfold terminated. cbn. rewrite H. by destruct r. Qed.

Lemma verdicts_killAll_new deno p n (served : list (N * Process)) :
  verdicts p (ELog Debug (WithNum "K: killing " n " process[es]")
              :: flat_map (λ kp, termination_effects deno kp.2) served) = [].
Proof.
  change (?x :: ?l) with ([x] ++ l). rewrite verdicts_app, verdicts_served.
  unfold verdicts, verdict. cbn. by rewrite !decide_False by done.
Qed.

(** ** start *)

Lemma start_iteration_sequential commands i c s :
  commands !! i = Some c → i ≠ length commands - 1 →
  (start_iteration commands i s).1 = Awaiting commands i (exe c)
  ∧ trace (start_iteration commands i s).2 = trace s ++ sequential_effects c
  ∧ processes (start_iteration commands i s).2 = processes s
  ∧ monitors (start_iteration commands i s).2 = monitors s
  ∧ build_calls (start_iteration commands i s).2 = build_calls s
  ∧ listeners (start_iteration commands i s).2 = listeners s
  ∧ halted (start_iteration commands i s).2 = halted s.
Proof.
  intros Hc Hi. unfold start_iteration. rewrite Hc.
  rewrite decide_False by done. cbn. by rewrite <- !app_assoc.
Qed.

Lemma start_iteration_main commands i c s :
  commands !! i = Some c → i = length commands - 1 →
  (start_iteration commands i s).1 = Returned (options c)
  ∧ trace (start_iteration commands i s).2 = trace s ++ main_effects c
  ∧ processes (start_iteration commands i s).2
    = <[pid (exe c) := exe c]> (processes s)
  ∧ monitors (start_iteration commands i s).2
    = monitors s ++ [(exe c, options c)]
  ∧ build_calls (start_iteration commands i s).2 = build_calls s
  ∧ listeners (start_iteration commands i s).2 = listeners s
  ∧ halted (start_iteration commands i s).2 = halted s.
Proof.
  intros Hc Hi. unfold start_iteration. rewrite Hc.
  rewrite decide_True by done. cbn. by rewrite <- !app_assoc.
Qed.

Lemma start_iteration_beyond commands i s :
  commands !! i = None →
  start_iteration commands i s = (Returned empty_options, s).
Proof. intros Hc. unfold start_iteration. by rewrite Hc. Qed.

Lemma settle_awaiting x rs (r : StartOutcome * State) commands i process :
  r.1 = Awaiting commands i process →
  settle (x :: rs) (normal r) = settle rs (start_resume commands i process x r.2).
Proof. destruct r as [o s]. cbn. by intros ->. Qed.

(** The loop from iteration [length before] on, every status resolving. *)
Lemma settle_from (pre : list (Command * ProcessStatus)) :
  ∀ (before : list Command) (main : Command) (s : State),
    let commands := before ++ pre.*1 ++ [main] in
    let r := settle (map (λ cs, Resolved cs.2) pre)
               (normal (start_iteration commands (length before) s)) in
    r.1 = Normal (Returned (options main))
    ∧ trace r.2
      = trace s
        ++ flat_map (λ cs, sequential_effects cs.1
                           ++ [ESettled (exe cs.1) (Resolved cs.2)]) pre
        ++ main_effects main
    ∧ processes r.2 = <[pid (exe main) := exe main]> (processes s)
    ∧ monitors r.2 = monitors s ++ [(exe main, options main)]
    ∧ build_calls r.2 = build_calls s
    ∧ listeners r.2 = listeners s
    ∧ halted r.2 = halted s.
Proof.
  induction pre as [|[c x] pre IH]; intros before main s; cbv zeta.
  - cbn [fmap list_fmap map settle flat_map app].
    destruct (start_iteration_main (before ++ [main]) (length before) main s)
      as (Ho & Ht & Hp & Hm & Hb & Hl & Hh).
    { by rewrite lookup_app_r, Nat.sub_diag by lia. }
    { rewrite length_app. cbn. lia. }
    unfold normal. cbn. rewrite Ho. done.
  - cbn [fmap list_fmap map flat_map fst snd].
    set (commands := before ++ (c :: pre.*1) ++ [main]).
    destruct (start_iteration_sequential commands (length before) c s)
      as (Ho & Ht & Hp & Hm & Hb & Hl & Hh).
    { unfold commands. by rewrite lookup_app_r, Nat.sub_diag by lia. }
    { unfold commands. rewrite !length_app. cbn [length]. lia. }
    rewrite (settle_awaiting _ _ _ _ _ _ Ho). unfold start_resume.
    set (s1 := emit (ESettled (exe c) (Resolved x)) (start_iteration commands (length before) s).2).
    specialize (IH (before ++ [c]) main s1). cbv zeta in IH.
    replace ((before ++ [c]) ++ pre.*1 ++ [main]) with commands in IH
      by (unfold commands; by rewrite <- app_assoc).
    replace (length (before ++ [c])) with (S (length before)) in IH
      by (rewrite length_app; cbn; lia).
    destruct IH as (Ho' & Ht' & Hp' & Hm' & Hb' & Hl' & Hh').
    split; [done|]. rewrite Ht', Hp', Hm', Hb', Hl', Hh'. subst s1. cbn.
    rewrite Ht, Hp, Hm, Hb, Hl, Hh. rewrite <- !app_assoc. done.
Qed.

(** With only the first [n] statuses settled, the loop is suspended on
    the command of iteration [n]. *)
Lemma settle_from_prefix (pre : list (Command * ProcessStatus)) :
  ∀ (before : list Command) (main : Command) (s : State) n c x,
    pre !! n = Some (c, x) →
    (settle (map (λ cs, Resolved cs.2) (take n pre))
       (normal (start_iteration (before ++ pre.*1 ++ [main]) (length before) s))).1
    = Normal (Awaiting (before ++ pre.*1 ++ [main]) (length before + n) (exe c)).
Proof.
  induction pre as [|[c0 x0] pre IH]; intros before main s n c x Hn; [done|].
  cbn [fmap list_fmap fst snd].
  set (commands := before ++ (c0 :: pre.*1) ++ [main]).
  destruct (start_iteration_sequential commands (length before) c0 s)
    as (Ho & _).
  { unfold commands. by rewrite lookup_app_r, Nat.sub_diag by lia. }
  { unfold commands. rewrite !length_app. cbn [length]. lia. }
  destruct n as [|n].
  - injection Hn as <- <-. cbn. rewrite Ho. by rewrite Nat.add_0_r.
  - cbn [take map snd]. rewrite (settle_awaiting _ _ _ _ _ _ Ho).
    unfold start_resume.
    set (s1 := emit (ESettled (exe c0) (Resolved x0)) (start_iteration commands (length before) s).2).
    specialize (IH (before ++ [c0]) main s1 n c x Hn).
    replace ((before ++ [c0]) ++ pre.*1 ++ [main]) with commands in IH
      by (unfold commands; by rewrite <- app_assoc).
    replace (length (before ++ [c0])) with (S (length before)) in IH
      by (rewrite length_app; cbn; lia).
    rewrite IH. do 2 f_equal. lia.
Qed.

(** ** Blocks that deliver nothing to the consumer *)

Lemma events_app a b : events (a ++ b) = events a ++ events b.
Proof. apply omap_app. Qed.

Lemma feed_pulls_app a b : feed_pulls (a ++ b) = feed_pulls a + feed_pulls b.
Proof. unfold feed_pulls. by rewrite filter_app, length_app. Qed.

Lemma quietly_refl s : quietly s s.
Proof. exists []. by rewrite app_nil_r. Qed.

Lemma quietly_same s s' : trace s' = trace s → quietly s s'.
Proof. intros H. exists []. by rewrite app_nil_r. Qed.

Lemma quietly_trans s1 s2 s3 : quietly s1 s2 → quietly s2 s3 → quietly s1 s3.
Proof.
  intros (n1 & H1 & E1 & F1) (n2 & H2 & E2 & F2). exists (n1 ++ n2).
  rewrite H2, H1, <- app_assoc, events_app, feed_pulls_app, E1, E2, F1, F2. done.
Qed.

Lemma quietly_new s s' new :
  trace s' = trace s ++ new → events new = [] → feed_pulls new = 0 → quietly s s'.
Proof. intros. by exists new. Qed.

Lemma quietly_events s s' : quietly s s' → events (trace s') = events (trace s).
Proof. intros (n & -> & E & _). by rewrite events_app, E, app_nil_r. Qed.

Lemma quietly_pulls s s' :
  quietly s s' → feed_pulls (trace s') = feed_pulls (trace s).
Proof. intros (n & -> & _ & F). rewrite feed_pulls_app, F. lia. Qed.

Lemma quietly_elem s s' e : quietly s s' → e ∈ trace s → e ∈ trace s'.
Proof. intros (n & -> & _). set_solver. Qed.

Lemma quietly_emit e s :
  yielded e = None → is_watcher_next e = false → quietly s (emit e s).
Proof.
  intros Hy Hw. exists [e]. split; [done|].
  destruct e; try discriminate; by split.
Qed.

Lemma quiet_served deno (served : list (N * Process)) :
  events (flat_map (λ kp, termination_effects deno kp.2) served) = []
  ∧ feed_pulls (flat_map (λ kp, termination_effects deno kp.2) served) = 0.
Proof.
  induction served as [|[k q] l [IHe IHf]]; [done|].
  cbn [flat_map]. rewrite events_app, feed_pulls_app, IHe, IHf.
  unfold termination_effects. by destruct (decide (build_os deno = Windows)).
Qed.

Lemma killAll_quietly deno s : quietly s (killAll deno s).2.
Proof.
  destruct (killAll_trace deno s) as (served & rest & _ & Ht).
  eapply quietly_new; [exact Ht| |].
  - change (?x :: ?l) with ([x] ++ l). rewrite events_app.
    by destruct (quiet_served deno served) as [-> _].
  - change (?x :: ?l) with ([x] ++ l). rewrite feed_pulls_app.
    by destruct (quiet_served deno served) as [_ ->].
Qed.

Lemma monitor_resume_quietly process options r s :
  quietly s (monitor_resume process options r s).
Proof.
  destruct (processes s !! pid process) as [q|] eqn:E.
  - destruct (monitor_resume_present process options r s q E)
      as (tail & Ht & _ & _ & _).
    unfold monitor_resume in *. destruct r as [x|e]; cbn in *; rewrite E in *.
    + rewrite log_exit_state. eapply quietly_new; [cbn; by rewrite <- !app_assoc| |].
      * by destruct (success x), (truthy (watch options)).
      * by destruct (success x), (truthy (watch options)).
    + eapply quietly_new; [cbn; by rewrite <- !app_assoc|done|done].
  - destruct (monitor_resume_absent process options r s E) as (Ht & _).
    eapply quietly_new; [exact Ht| |]; by destruct r.
Qed.

Lemma monitor_resume_frame process options r s :
  build_calls (monitor_resume process options r s) = build_calls s
  ∧ monitors (monitor_resume process options r s) = monitors s
  ∧ listeners (monitor_resume process options r s) = listeners s
  ∧ halted (monitor_resume process options r s) = halted s.
Proof.
  unfold monitor_resume.
  destruct r as [x|e]; cbn; destruct (processes s !! pid process); cbn;
    rewrite ?log_exit_state; done.
Qed.

Lemma monitor_resume_processes process options r s :
  processes (monitor_resume process options r s)
  = match processes s !! pid process with
    | Some _ => delete (pid process) (processes s)
    | None => processes s
    end.
Proof.
  destruct (processes s !! pid process) as [q|] eqn:E.
  - by destruct (monitor_resume_present process options r s q E) as (? & _ & Hp & _).
  - by destruct (monitor_resume_absent process options r s E) as (_ & Hp).
Qed.

Lemma start_iteration_quietly commands i s :
  quietly s (start_iteration commands i s).2.
Proof.
  destruct (commands !! i) as [c|] eqn:E.
  - destruct (decide (i = length commands - 1)) as [Hi|Hi].
    + destruct (start_iteration_main commands i c s E Hi) as (_ & Ht & _).
      by eapply quietly_new.
    + destruct (start_iteration_sequential commands i c s E Hi) as (_ & Ht & _).
      by eapply quietly_new.
  - rewrite start_iteration_beyond by done. apply quietly_refl.
Qed.

Lemma start_iteration_frame commands i s :
  build_calls (start_iteration commands i s).2 = build_calls s
  ∧ listeners (start_iteration commands i s).2 = listeners s
  ∧ halted (start_iteration commands i s).2 = halted s.
Proof.
  destruct (commands !! i) as [c|] eqn:E.
  - destruct (decide (i = length commands - 1)) as [Hi|Hi].
    + by destruct (start_iteration_main commands i c s E Hi)
        as (_ & _ & _ & _ & -> & -> & ->).
    + by destruct (start_iteration_sequential commands i c s E Hi)
        as (_ & _ & _ & _ & -> & -> & ->).
  - by rewrite start_iteration_beyond.
Qed.

Lemma onExit_state deno s :
  quietly s (onExit deno s)
  ∧ processes (onExit deno s) = processes s
  ∧ build_calls (onExit deno s) = build_calls s
  ∧ monitors (onExit deno s) = monitors s
  ∧ halted (onExit deno s) = halted s.
Proof.
  unfold onExit. destruct (decide (build_os deno ≠ Windows)).
  - split; [|done]. eapply quietly_new; [cbn; by rewrite <- !app_assoc|done|done].
  - split; [apply quietly_refl|done].
Qed.

(** ** The registry under one iteration *)

Lemma after_start_state deno k o s :
  let r := after_start deno k o s in
  processes r.2 = processes s
  ∧ build_calls r.2 = build_calls s
  ∧ monitors r.2 = monitors s
  ∧ halted r.2 = halted s
  ∧ ¬ starting r.1.
Proof.
  cbv zeta. unfold after_start, watcher_next, yield_exit.
  destruct (onExit_state deno s) as (_ & Hp & Hb & Hm & Hh).
  destruct k; [destruct (truthy (watch o))|]; cbn; rewrite ?Hp, ?Hb, ?Hm, ?Hh;
    repeat split; auto.
Qed.

Lemma continue_iteration_tidy deno k commands i s :
  processes s = ∅ →
  tidy (lift (continue_start deno k (normal (start_iteration commands i s)))).
Proof.
  intros Hs. unfold normal.
  destruct (commands !! i) as [c|] eqn:E.
  - destruct (decide (i = length commands - 1)) as [Hi|Hi].
    + destruct (start_iteration_main commands i c s E Hi) as (Ho & _ & Hp & _).
      rewrite Ho. cbn [continue_start].
      destruct (after_start_state deno k (options c) (start_iteration commands i s).2)
        as (Hp' & _ & _ & _ & Hg).
      split; cbn; [|done]. rewrite Hp', Hp, Hs, insert_empty, map_size_singleton. lia.
    + destruct (start_iteration_sequential commands i c s E Hi) as (Ho & _ & Hp & _).
      rewrite Ho. cbn. split; cbn; rewrite Hp, Hs; [|done].
      rewrite map_size_empty. lia.
  - rewrite start_iteration_beyond by done. cbn.
    destruct (after_start_state deno k empty_options s) as (Hp' & _ & _ & _ & Hg).
    split; cbn; [|done]. rewrite Hp', Hs, map_size_empty. lia.
Qed.

Lemma fire_tidy deno d a s : tidy s → tidy (fire deno d a s).
Proof.
  intros Hs. unfold fire.
  destruct (halted (st s)); [done|].
  destruct s as [g s]. destruct Hs as [Hsize Hstart]. cbn [gen st] in *.
  destruct a as [|r|b|p r|sg].
  - destruct g; cbn [gen_next].
    + split; cbn; auto.
    + apply continue_iteration_tidy. cbn. by apply Hstart.
    + by split.
    + by split.
    + unfold reload.
      set (s0 := log Info (Lit "restarting due to changes...") _).
      pose proof (killAll_processes deno s0) as Hk.
      destruct (killAll deno s0) as [[[]|e] s1]; cbn [snd] in Hk.
      * apply continue_iteration_tidy. done.
      * split; cbn; [|done]. rewrite Hk, map_size_empty. lia.
    + by split.
    + by split.
  - destruct g; cbn [gen_status]; try by split.
    unfold start_resume. destruct r as [x|e].
    + apply continue_iteration_tidy. cbn. by apply Hstart.
    + by split.
  - destruct g; cbn [gen_feed]; try by split.
    destruct b as [watchE|]; [destruct (qualifies watchE)|]; by split.
  - destruct (take_monitor p (monitors s)) as [[o l]|]; [|by split].
    split; cbn [gen st lift fst snd].
    + rewrite monitor_resume_processes. cbn.
      destruct (processes s !! pid p); [|done].
      etransitivity; [|exact Hsize]. apply map_subseteq_size, delete_subseteq.
    + intros Hg. rewrite monitor_resume_processes. cbn.
      rewrite (Hstart Hg), lookup_empty. done.
  - destruct (take_listener sg (listeners s)) as [l|]; [|by split].
    unfold signal_resume.
    pose proof (killAll_processes deno (set_listeners l s)) as Hk.
    destruct (killAll deno (set_listeners l s)) as [[[]|e] s1]; cbn [snd] in Hk;
      split; cbn; rewrite ?Hk, ?map_size_empty; auto with lia.
Qed.

Lemma run_tidy deno d sched s : tidy s → tidy (run deno d sched s).
Proof.
  revert s. induction sched as [|a sched IH]; intros s Hs; [done|].
  cbn. apply IH. by apply fire_tidy.
Qed.

Lemma boot_tidy : tidy boot.
Proof. split; cbn; [rewrite map_size_empty; lia|done]. Qed.

(** C3. A chain of N >= 1 commands, its first N-1 statuses resolving to
    whatever values: [start] spawns the commands in the order of the array;
    each of the first N-1 is spawned, awaited and settled before the next
    is spawned, and the value of its status changes nothing but the record
    of the settlement; the N-th is spawned, stored in the registry under
    its pid and handed to the monitor, which is left suspended on its
    status, and [start] returns the options of the N-th command.  While
    fewer statuses have settled, [start] is suspended on the command whose
    turn it is.  From a new daemon with one iteration, whatever the outside
    world does, the registry never holds more than one entry. *)
Theorem start_runs_chain_in_order (deno : Platform) (d : Daemon)
    (pre : list (Command * ProcessStatus)) (main : Command) (s : State) :
  runner_build (denon d) (script d) (build_calls s) = pre.*1 ++ [main] →
  let r := settle (map (λ cs, Resolved cs.2) pre) (normal (start d s)) in
  r.1 = Normal (Returned (options main))
  ∧ trace r.2
    = trace s ++ [EBuild (script d)]
      ++ flat_map (λ cs, sequential_effects cs.1
                         ++ [ESettled (exe cs.1) (Resolved cs.2)]) pre
      ++ main_effects main
  ∧ processes r.2 = <[pid (exe main) := exe main]> (processes s)
  ∧ monitors r.2 = monitors s ++ [(exe main, options main)]
  ∧ (∀ n c x, pre !! n = Some (c, x) →
       (settle (map (λ cs, Resolved cs.2) (take n pre)) (normal (start d s))).1
       = Normal (Awaiting (pre.*1 ++ [main]) n (exe c)))
  ∧ ∀ sched, size (processes (st (run deno d sched boot))) ≤ 1.
Proof.
  intros Hbuild. cbv zeta. unfold start. rewrite Hbuild.
  set (s0 := emit (EBuild (script d)) (set_build_calls (S (build_calls s)) s)).
  destruct (settle_from pre [] main s0) as (Ho & Ht & Hp & Hm & _).
  cbn [app length] in Ho, Ht, Hp, Hm.
  split; [done|]. split; [rewrite Ht; unfold s0; cbn; by rewrite <- app_assoc|].
  split; [done|]. split; [done|]. split.
  - intros n c x Hn.
    apply (settle_from_prefix pre [] main s0 n c x Hn).
  - intros sched. apply (run_tidy deno d sched boot boot_tidy).
Qed.

(** The chain of scenario A, its setup command reporting success. *)
Lemma start_runs_chain_in_order_witness :
  (settle [ok] (normal (start daemonA initial))).1 = Normal (Returned watching)
  ∧ processes (settle [ok] (normal (start daemonA initial))).2
    = {[ 101%N := {| pid := 101; rid := 4 |} ]}.
Proof.
  pose proof (start_runs_chain_in_order unix daemonA
                [({| cmd := ["echo"; "setup"]; exe := {| pid := 100; rid := 3 |};
                     options := watching |}, {| success := true |})]
                {| cmd := ["sleep"; "100"]; exe := {| pid := 101; rid := 4 |};
                   options := watching |}
                initial eq_refl) as H.
  cbv zeta in H. destruct H as (H1 & _ & H3 & _). split; [exact H1|exact H3].
Defined.

(** ** Driving the system through a chain *)

Lemma run_app deno d a b s : run deno d (a ++ b) s = run deno d b (run deno d a s).
Proof. apply foldl_app. Qed.

Lemma run_cons deno d a l s : run deno d (a :: l) s = run deno d l (fire deno d a s).
Proof. reflexivity. Qed.

Lemma fire_live deno d a g s :
  halted s = false →
  fire deno d a {| gen := g; st := s |}
  = match a with
    | ANext => lift (gen_next deno d g s)
    | AStatus r => lift (gen_status deno r g s)
    | AFeed b => lift (gen_feed b g s)
    | AMonitor p r =>
        match take_monitor p (monitors s) with
        | Some (o, l) =>
            {| gen := g; st := monitor_resume p o r (set_monitors l s) |}
        | None => {| gen := g; st := s |}
        end
    | ASignal sg =>
        match take_listener sg (listeners s) with
        | Some l => {| gen := g; st := signal_resume deno (set_listeners l s) |}
        | None => {| gen := g; st := s |}
        end
    end.
Proof. intros Hh. unfold fire. cbn. by rewrite Hh. Qed.

Lemma run_statuses_idle deno d rs s :
  ¬ awaiting_status (gen s) → run deno d (map AStatus rs) s = s.
Proof.
  intros Hg. induction rs as [|x rs IH]; [done|].
  cbn [map]. rewrite run_cons.
  replace (fire deno d (AStatus x) s) with s; [done|].
  unfold fire. destruct (halted (st s)); [done|].
  destruct s as [g s]. cbn in *. by destruct g.
Qed.

Lemma continue_start_halted deno k r :
  halted (continue_start deno k r).2 = halted r.2.
Proof.
  destruct r as [[[o|commands i p]|e] s]; cbn; [|done|done].
  by destruct (after_start_state deno k o s) as (_ & _ & _ & -> & _).
Qed.

Lemma start_resume_halted commands i p x s :
  halted (start_resume commands i p x s).2 = halted s.
Proof.
  unfold start_resume. destruct x; [|done]. cbn.
  by destruct (start_iteration_frame commands (S i) (emit (ESettled p (Resolved a)) s))
    as (_ & _ & ->).
Qed.

(** The statuses of the sequential commands, delivered to the generator,
    drive the suspended [start] as [settle] does. *)
Lemma run_statuses deno d k rs r :
  halted r.2 = false →
  run deno d (map AStatus rs) (lift (continue_start deno k r))
  = lift (continue_start deno k (settle rs r)).
Proof.
  revert r. induction rs as [|x rs IH]; intros r Hh; [done|].
  destruct r as [[[o|commands i p]|e] s].
  - cbn [settle]. apply run_statuses_idle. cbn.
    destruct (after_start_state deno k o s) as (_ & _ & _ & _ & Hg).
    intros Ha. apply Hg. by destruct (after_start deno k o s).1.
  - cbn [map settle]. rewrite run_cons. cbn in Hh.
    cbn [continue_start].
    change (lift (GAwaitStatus k commands i p, s))
      with {| gen := GAwaitStatus k commands i p; st := s |}.
    rewrite fire_live by done. cbn [gen_status]. apply IH.
    by rewrite start_resume_halted.
  - cbn [settle]. apply run_statuses_idle. cbn. tauto.
Qed.

(** ** A chain that does not ask for watching *)

Lemma main_options_last commands c :
  commands !! (length commands - 1) = Some c → main_options commands = options c.
Proof.
  intros Hc. unfold main_options. rewrite last_lookup.
  replace (pred (length commands)) with (length commands - 1) by lia.
  by rewrite Hc.
Qed.

Lemma continue_iteration_no_watch deno d i s :
  let commands := runner_build (denon d) (script d) 0 in
  truthy (watch (main_options commands)) = false →
  i < length commands ∨ commands = [] →
  events (trace s) = [EvStart] → feed_pulls (trace s) = 0 →
  no_watch_inv d
    (lift (continue_start deno FromIterate (normal (start_iteration commands i s)))).
Proof.
  intros commands Hw Hi He Hf. unfold normal.
  assert (∀ o s', quietly s s' → truthy (watch o) = false →
            no_watch_inv d (lift (after_start deno FromIterate o s'))) as Hexit.
  { intros o s' Hq Ho. unfold after_start. rewrite Ho.
    destruct (onExit_state deno s') as (Hq' & _).
    pose proof (quietly_trans _ _ _ Hq Hq') as Hq2.
    split; cbn.
    - rewrite feed_pulls_app, (quietly_pulls _ _ Hq2), Hf. done.
    - rewrite events_app, (quietly_events _ _ Hq2), He. done. }
  destruct (commands !! i) as [c|] eqn:E.
  - destruct (decide (i = length commands - 1)) as [Hl|Hl].
    + destruct (start_iteration_main commands i c s E Hl) as (Ho & _).
      rewrite Ho. cbn [continue_start]. apply Hexit.
      * apply start_iteration_quietly.
      * rewrite <- (main_options_last commands c); [done|by rewrite <- Hl].
    + destruct (start_iteration_sequential commands i c s E Hl) as (Ho & Ht & _).
      rewrite Ho. cbn [continue_start]. apply lookup_lt_Some in E.
      pose proof (start_iteration_quietly commands i s) as Hq.
      split; cbn.
      * by rewrite (quietly_pulls _ _ Hq).
      * rewrite (quietly_events _ _ Hq). split; [done|]. split; [done|lia].
  - rewrite start_iteration_beyond by done. cbn [continue_start fst snd].
    apply lookup_ge_None in E. destruct Hi as [Hi|Hi]; [lia|].
    apply Hexit; [apply quietly_refl|].
    fold commands in Hw. by rewrite Hi in Hw.
Qed.

Lemma signal_resume_quietly deno s : quietly s (signal_resume deno s).
Proof.
  unfold signal_resume. pose proof (killAll_quietly deno s) as Hq.
  destruct (killAll deno s) as [[[]|e] s1]; cbn [snd] in Hq.
  - eapply quietly_trans; [exact Hq|].
    eapply quietly_trans; [by apply (quietly_emit (EExit 0))|].
    by apply quietly_same.
  - eapply quietly_trans; [exact Hq|]. by apply quietly_emit.
Qed.

Lemma no_watch_inv_quietly d g s s' :
  quietly s s' → build_calls s' = build_calls s →
  no_watch_inv d {| gen := g; st := s |} → no_watch_inv d {| gen := g; st := s' |}.
Proof.
  intros Hq Hb [Hf Hg]. split; cbn [gen st] in *.
  - by rewrite (quietly_pulls _ _ Hq).
  - rewrite (quietly_events _ _ Hq), Hb.
    destruct g; try done.
    destruct Hg as [Hg|(Hg & e & He)]; [by left|right].
    split; [done|]. exists e. by eapply quietly_elem.
Qed.

Lemma fire_no_watch deno d a s :
  truthy (watch (main_options (runner_build (denon d) (script d) 0))) = false →
  no_watch_inv d s → no_watch_inv d (fire deno d a s).
Proof.
  intros Hw Hs. unfold fire.
  destruct (halted (st s)); [done|].
  destruct s as [g s]. pose proof Hs as [Hf Hg]. cbn [gen st] in *.
  destruct a as [|r|b|p r|sg].
  - destruct g; cbn [gen_next]; try done.
    + destruct Hg as [He Hb]. split; cbn.
      * rewrite feed_pulls_app, Hf. done.
      * rewrite events_app, He. done.
    + destruct Hg as [He Hb]. unfold start. rewrite Hb.
      apply continue_iteration_no_watch; [done| |cbn|cbn].
      * destruct (runner_build (denon d) (script d) 0); [by right|left; cbn; lia].
      * by rewrite events_app, He.
      * by rewrite feed_pulls_app, Hf.
    + split; cbn.
      * by rewrite feed_pulls_app, Hf.
      * left. by rewrite events_app, Hg.
    + split; cbn.
      * by rewrite feed_pulls_app, Hf.
      * rewrite events_app. cbn.
        destruct Hg as [Hg|(Hg & e & He)]; [left|right].
        -- by rewrite Hg.
        -- split; [by rewrite Hg|]. exists e. set_solver.
  - destruct g; cbn [gen_status]; try done.
    destruct k; [|done]. destruct Hg as (He & -> & Hi).
    unfold start_resume. destruct r as [x|e].
    + apply continue_iteration_no_watch; [done|left; lia|cbn|cbn].
      * by rewrite events_app, He.
      * by rewrite feed_pulls_app, Hf.
    + split; cbn.
      * by rewrite !feed_pulls_app, Hf.
      * right. rewrite !events_app, He. split; [done|]. exists e. set_solver.
  - destruct g; cbn [gen_feed]; done.
  - destruct (take_monitor p (monitors s)) as [[o l]|]; [|done].
    eapply no_watch_inv_quietly; [| |exact Hs].
    + eapply quietly_trans; [|apply monitor_resume_quietly]. by apply quietly_same.
    + by destruct (monitor_resume_frame p o r (set_monitors l s)) as (-> & _).
  - destruct (take_listener sg (listeners s)) as [l|]; [|done].
    eapply no_watch_inv_quietly; [| |exact Hs].
    + eapply quietly_trans; [|apply signal_resume_quietly]. by apply quietly_same.
    + unfold signal_resume.
      destruct (killAll_frame deno (set_listeners l s)) as (Hb & _).
      destruct (killAll deno (set_listeners l s)) as [[[]|e] s1]; cbn in *; done.
Qed.

Lemma run_no_watch deno d sched s :
  truthy (watch (main_options (runner_build (denon d) (script d) 0))) = false →
  no_watch_inv d s → no_watch_inv d (run deno d sched s).
Proof.
  intros Hw. revert s. induction sched as [|a sched IH]; intros s Hs; [done|].
  rewrite run_cons. apply IH. by apply fire_no_watch.
Qed.

Lemma chain_shape (commands : list Command) :
  commands = [] ∨ ∃ before main, commands = before ++ [main].
Proof.
  induction commands as [|c l _] using rev_ind; [by left|right]. by exists l, c.
Qed.

(** [start]'s loop runs to its end when every status resolves. *)
Lemma settle_complete commands (xs : list ProcessStatus) s :
  length xs = length commands - 1 →
  let r := settle (map Resolved xs) (normal (start_iteration commands 0 s)) in
  r.1 = Normal (Returned (main_options commands)) ∧ halted r.2 = halted s
  ∧ quietly s r.2 ∧ build_calls r.2 = build_calls s.
Proof.
  intros Hlen. cbv zeta.
  destruct (chain_shape commands) as [->|(before & main & ->)].
  - destruct xs; [|done]. cbn. split; [done|]. split; [done|].
    split; [apply quietly_refl|done].
  - rewrite length_app in Hlen. cbn in Hlen.
    assert (length xs = length before) as Hl by lia.
    pose proof (settle_from (zip before xs) [] main s) as H. cbv zeta in H.
    rewrite fst_zip in H by lia.
    replace (map (λ cs : Command * ProcessStatus, Resolved cs.2) (zip before xs))
      with (map Resolved xs) in H.
    2:{ rewrite <- (snd_zip before xs) at 1 by lia.
        by rewrite <- list_fmap_compose. }
    cbn [app length] in H. destruct H as (Ho & Ht & _ & _ & Hb & _ & Hh).
    split; [|split; [done|split; [|done]]].
    + rewrite Ho. unfold main_options. by rewrite last_snoc.
    + eapply quietly_new; [exact Ht| |].
      * rewrite events_app.
        assert (∀ l : list (Command * ProcessStatus),
                  events (flat_map (λ cs, sequential_effects cs.1
                            ++ [ESettled (exe cs.1) (Resolved cs.2)]) l) = []) as E.
        { induction l as [|a l IH]; [done|]. cbn [flat_map].
          by rewrite events_app, IH. }
        by rewrite E.
      * rewrite feed_pulls_app.
        assert (∀ l : list (Command * ProcessStatus),
                  feed_pulls (flat_map (λ cs, sequential_effects cs.1
                            ++ [ESettled (exe cs.1) (Resolved cs.2)]) l) = 0) as E.
        { induction l as [|a l IH]; [done|]. cbn [flat_map].
          by rewrite feed_pulls_app, IH. }
        by rewrite E.
Qed.

Lemma boot_no_watch d : no_watch_inv d boot.
Proof. by split. Qed.

(** C4. Let the options of the main command of the chain have a [watch]
    that is not true (for the empty chain [start] returns [{}], whose [watch]
    is not true).  Whatever the outside world does and in whatever order
    (statuses settling or failing, the main process exiting early or late,
    signals), the change feed is never asked for a batch, and the events
    delivered are [start] then [exit]: a prefix of that sequence at every
    moment, all of it once the generator has yielded [exit] or has finished
    without throwing.  When the statuses of the sequential commands resolve
    and the consumer keeps pulling, the generator does finish, having
    delivered exactly [start; exit]. *)
Theorem no_watch_gives_start_exit (deno : Platform) (d : Daemon) :
  truthy (watch (main_options (runner_build (denon d) (script d) 0))) = false →
  (∀ sched,
     let s := run deno d sched boot in
     feed_pulls (trace (st s)) = 0
     ∧ gen s ≠ GAwaitWatcher
     ∧ events (trace (st s)) `prefix_of` [EvStart; EvExit]
     ∧ (gen s = GYieldedExit → events (trace (st s)) = [EvStart; EvExit])
     ∧ (gen s = GDone →
        events (trace (st s)) = [EvStart; EvExit]
        ∨ ∃ e, ERaise e ∈ trace (st s)))
  ∧ ∀ xs : list ProcessStatus,
      length xs = length (runner_build (denon d) (script d) 0) - 1 →
      let s := run deno d ([ANext; ANext] ++ map AStatus (map Resolved xs) ++ [ANext]) boot in
      gen s = GDone
      ∧ events (trace (st s)) = [EvStart; EvExit]
      ∧ feed_pulls (trace (st s)) = 0
      ∧ last (trace (st s)) = Some EDone.
Proof.
  intros Hw. split.
  - intros sched. cbv zeta.
    destruct (run_no_watch deno d sched boot Hw (boot_no_watch d)) as [Hf Hg].
    split; [done|].
    destruct (gen (run deno d sched boot)) as [| |k commands i p| | | |];
      try done.
    + destruct Hg as [-> _]. repeat split; try done. by exists [EvStart; EvExit].
    + destruct Hg as [-> _]. repeat split; try done. by exists [EvExit].
    + destruct k; [|done]. destruct Hg as (-> & _).
      repeat split; try done. by exists [EvExit].
    + rewrite Hg. repeat split; try done.
    + split; [done|]. split.
      * destruct Hg as [->|[-> _]]; [done|by exists [EvExit]].
      * split; [done|]. intros _. destruct Hg as [Hg|[_ Hg]]; auto.
  - intros xs Hlen. cbv zeta.
    rewrite !run_app.
    set (s1 := emit (EYield EvStart) initial).
    assert (run deno d [ANext; ANext] boot
            = lift (continue_start deno FromIterate (normal (start d s1)))) as ->
      by reflexivity.
    rewrite run_statuses.
    2:{ unfold start, normal. cbn [snd].
        by destruct (start_iteration_frame
                       (runner_build (denon d) (script d) (build_calls s1)) 0
                       (emit (EBuild (script d)) (set_build_calls (S (build_calls s1)) s1)))
          as (_ & _ & ->). }
    unfold start.
    set (s2 := emit (EBuild (script d)) (set_build_calls (S (build_calls s1)) s1)).
    change (build_calls s1) with 0.
    destruct (settle_complete (runner_build (denon d) (script d) 0) xs s2 Hlen)
      as (Ho & Hh & Hq & _).
    destruct (settle _ _) as [o s3]. cbn [fst snd] in *. subst o.
    cbn [continue_start]. unfold after_start. rewrite Hw.
    destruct (onExit_state deno s3) as (Hq' & _ & _ & _ & Hh').
    unfold yield_exit, lift. cbn [fst snd].
    rewrite run_cons. rewrite fire_live by (cbn; by rewrite Hh', Hh).
    cbn. split; [done|].
    pose proof (quietly_trans _ _ _ Hq Hq') as Hq2.
    rewrite !events_app, !feed_pulls_app.
    rewrite (quietly_events _ _ Hq2), (quietly_pulls _ _ Hq2).
    split; [done|]. split; [done|]. by rewrite last_snoc.
Qed.

Lemma no_watch_gives_start_exit_witness :
  events (trace (st (run unix daemonB [ANext; ANext; ANext] boot)))
  = [EvStart; EvExit]
  ∧ feed_pulls (trace (st (run unix daemonB [ANext; ANext; ANext] boot))) = 0.
Proof.
  pose proof (no_watch_gives_start_exit unix daemonB eq_refl) as [_ H].
  specialize (H [] eq_refl). cbv zeta in H.
  destruct H as (_ & He & Hf & _). split; [exact He|exact Hf].
Defined.

(** ** reload *)

Lemma reload_unfold deno d s :
  reload deno d s
  = match killAll deno (announced (config (denon d)) s) with
    | (Normal _, s') => normal (start d s')
    | (Throw e, s') => (Throw e, s')
    end.
Proof.
  unfold reload. set (sb := log Info (Lit "restarting due to changes...") _).
  assert (sb = announced (config (denon d)) s) as ->; [|done].
  subst sb. unfold announced, reload_banner, log, emit.
  destruct (logger (config (denon d))) as [[[|]]|];
    destruct (match_ (watcher (config (denon d))));
    destruct (exts (watcher (config (denon d))));
    cbn; rewrite <- ?app_assoc; reflexivity.
Qed.

Lemma killAll_normal deno s :
  (killAll deno s).1 = Normal ()
  ↔ ∀ k p, processes s !! k = Some p → answer deno p = Normal ().
Proof.
  rewrite killAll_unfold. set (c := set_processes _ _).
  destruct (kill_loop_cases deno (for_in (processes s)) c)
    as [(Hall & Hn & _)|(served & k & p & rest & e & Hl & _ & Ha & He & _)].
  - split; [|done]. intros _ k p Hkp.
    apply for_in_lookup in Hkp. rewrite Forall_forall in Hall.
    by apply (Hall (k, p)).
  - split.
    + intros Hn. rewrite He in Hn. discriminate.
    + intros Hok. assert (answer deno p = Normal ()) as Hp.
      { apply (Hok k). apply for_in_lookup. rewrite Hl. set_solver. }
      congruence.
Qed.

Lemma quiet_banner cfg :
  events (reload_banner cfg) = [] ∧ feed_pulls (reload_banner cfg) = 0.
Proof.
  unfold reload_banner.
  by destruct (logger cfg) as [[[|]]|], (match_ (watcher cfg)), (exts (watcher cfg)).
Qed.

Lemma start_quietly d s : quietly s (start d s).2.
Proof.
  unfold start. eapply quietly_trans; [|apply start_iteration_quietly].
  by eapply quietly_new.
Qed.

Lemma start_trace d s :
  ∃ tail, trace (start d s).2 = trace s ++ EBuild (script d) :: tail
          ∧ events tail = [] ∧ feed_pulls tail = 0.
Proof.
  unfold start.
  destruct (start_iteration_quietly (runner_build (denon d) (script d) (build_calls s)) 0
              (emit (EBuild (script d)) (set_build_calls (S (build_calls s)) s)))
    as (tail & Ht & He & Hf).
  exists tail. split; [|done]. rewrite Ht. cbn. by rewrite <- app_assoc.
Qed.

Lemma start_frame d s :
  build_calls (start d s).2 = S (build_calls s)
  ∧ listeners (start d s).2 = listeners s
  ∧ halted (start d s).2 = halted s.
Proof.
  unfold start.
  by destruct (start_iteration_frame (runner_build (denon d) (script d) (build_calls s)) 0
                 (emit (EBuild (script d)) (set_build_calls (S (build_calls s)) s)))
    as (-> & -> & ->).
Qed.

(** What a generator resumed inside or after [start] adds to the trace:
    nothing for the consumer, or the [exit] event. *)
Lemma continue_start_trace deno k r :
  ∃ new, trace (continue_start deno k r).2 = trace r.2 ++ new
         ∧ (events new = [] ∨ events new = [EvExit]).
Proof.
  destruct r as [[[o|commands i p]|e] s]; cbn [continue_start fst snd].
  - unfold after_start, watcher_next, yield_exit.
    destruct (onExit_state deno s) as ((new & Ht & He & _) & _).
    destruct k; [destruct (truthy (watch o))|]; cbn.
    + exists (new ++ [EWatcherNext]). rewrite Ht, <- app_assoc, events_app, He. auto.
    + exists (new ++ [EYield EvExit]). rewrite Ht, <- app_assoc, events_app, He. auto.
    + exists [EWatcherNext]. auto.
  - exists []. rewrite app_nil_r. auto.
  - exists [ERaise e]. auto.
Qed.

(** C5. A batch arrives while the generator waits on the feed.  The batch
    qualifies exactly when one of its records has "modify" in its
    classification.  A batch that does not qualify adds nothing but the
    next pull on the feed: no event, no kill, no build.  A batch that
    qualifies makes the generator yield one [reload] event carrying the
    batch and suspend there, the registry and the build count untouched;
    when the consumer resumes it, [reload] runs after that event in the
    trace: its banner, then [killAll] over the registry, then, if no
    termination request threw, the rebuild of the chain; and that block
    delivers no further event. *)
Theorem reload_filter_law (deno : Platform) (d : Daemon)
    (watchE : list FileEvent) (s : State) :
  let r := gen_feed (Some watchE) GAwaitWatcher s in
  (qualifies watchE = true ↔ ∃ e, e ∈ watchE ∧ "modify" ∈ type e)
  ∧ if qualifies watchE then
      r.1 = GYieldedReload
      ∧ trace r.2
        = trace s ++ [ELog Debug (Lit "R: reload event detected, starting the reload procedure...");
                      EYield (EvReload watchE)]
      ∧ processes r.2 = processes s
      ∧ build_calls r.2 = build_calls s
      ∧ ∃ served rest tail,
          for_in (processes s) = served ++ rest
          ∧ trace (gen_next deno d r.1 r.2).2
            = trace r.2 ++ reload_banner (config (denon d))
              ++ ELog Debug (WithNum "K: killing " (size (processes s)) " process[es]")
                 :: flat_map (λ kp, termination_effects deno kp.2) served
              ++ tail
          ∧ events tail = []
          ∧ ((∀ k p, processes s !! k = Some p → answer deno p = Normal ()) →
             rest = [] ∧ ∃ tail', tail = EBuild (script d) :: tail')
    else
      r = (GAwaitWatcher, emit EWatcherNext s).
Proof.
  cbv zeta. split.
  { unfold qualifies. rewrite existsb_exists. split.
    - intros (e & Hin & He). exists e. split; [by apply list_elem_of_In|].
      unfold includes in He. by apply bool_decide_eq_true in He.
    - intros (e & Hin & He). exists e. split; [by apply list_elem_of_In|].
      unfold includes. by apply bool_decide_eq_true. }
  cbn [gen_feed]. destruct (qualifies watchE); [|done].
  cbn [fst snd]. split; [done|]. split; [cbn; by rewrite <- app_assoc|].
  split; [done|]. split; [done|].
  set (s1 := emit _ _). cbn [gen_next]. rewrite reload_unfold.
  set (sb := announced (config (denon d)) s1).
  destruct (kill_loop_cases deno (for_in (processes s)) 
              (set_processes ∅ (log Debug (WithNum "K: killing " (size (processes s)) " process[es]") sb)))
    as [(Hall & Hn & Htr)|(served & k & p & rest & e & Hl & Hall & Ha & He & Htr)].
  - change (kill_loop deno _ _) with (killAll deno sb) in Hn, Htr.
    destruct (killAll deno sb) as [[[]|e] sk] eqn:Ek; [|done]. cbn [fst snd] in *.
    destruct (start_trace d sk) as (t1 & Ht1 & He1 & Hf1).
    destruct (continue_start_trace deno FromReload (normal (start d sk)))
      as (t2 & Ht2 & He2).
    exists (for_in (processes s)), [], (EBuild (script d) :: t1 ++ t2).
    split; [by rewrite app_nil_r|]. split.
    { rewrite Ht2. cbn [normal snd]. rewrite Ht1, Htr. cbn.
      rewrite <- !app_assoc. cbn. by rewrite <- ?app_assoc. }
    split.
    { change (?x :: ?l) with ([x] ++ l). rewrite !events_app, He1.
      destruct He2 as [->|He2]; [done|].
      exfalso. revert Ht2 He2. unfold normal. cbn [continue_start fst snd].
      destruct (start d sk).1; cbn; intros Ht2 He2.
      - apply app_inv_head in Ht2 as <-. done.
      - rewrite <- (app_nil_r (trace _)) in Ht2 at 1.
        apply app_inv_head in Ht2 as <-. done. }
    intros _. split; [done|]. by eexists.
  - change (kill_loop deno _ _) with (killAll deno sb) in He, Htr.
    destruct (killAll deno sb) as [[[]|e'] sk] eqn:Ek; [done|]. cbn [fst snd] in *.
    injection He as ->.
    exists (served ++ [(k, p)]), rest, [ERaise e].
    split; [by rewrite <- app_assoc|]. split.
    { cbn. rewrite Htr. cbn. rewrite <- !app_assoc. cbn. by rewrite <- ?app_assoc. }
    split; [done|]. intros Hok. exfalso.
    assert (answer deno p = Normal ()) as Hp.
    { apply (Hok k). apply for_in_lookup. rewrite Hl. set_solver. }
    congruence.
Qed.

(** ** The watch loop *)

Lemma continue_reload_loop deno r :
  in_watch_loop (continue_start deno FromReload r).1
  ∨ ((continue_start deno FromReload r).1 = GDone
     ∧ ∃ e, last (trace (continue_start deno FromReload r).2) = Some (ERaise e)).
Proof.
  destruct r as [[[o|commands i p]|e] s]; cbn; [by left|by left|right].
  split; [done|]. exists e. by rewrite last_snoc.
Qed.

(** C10. The options that [start] returns to [reload] are dropped: after a
    reload the generator pulls the feed again whatever they are, while the
    options of the first chain execution alone decide between watching and
    [exit].  Inside the watch loop no action of the outside world other
    than the end of the feed takes the generator out of it, unless a call
    throws.  So a reload whose rebuilt chain runs to its main command ends
    with the next pull on the feed, even when that command's options have
    [watch] false. *)
Theorem reload_discards_options (deno : Platform) (d : Daemon) :
  (∀ o s, after_start deno FromReload o s = (GAwaitWatcher, emit EWatcherNext s))
  ∧ (∀ o s, (after_start deno FromIterate o s).1
            = if truthy (watch o) then GAwaitWatcher else GYieldedExit)
  ∧ (∀ a s, in_watch_loop (gen s) → a ≠ AFeed None →
       in_watch_loop (gen (fire deno d a s))
       ∨ (gen (fire deno d a s) = GDone
          ∧ ∃ e, last (trace (st (fire deno d a s))) = Some (ERaise e)))
  ∧ ∀ (xs : list ProcessStatus) s,
      halted s = false →
      (∀ k p, processes s !! k = Some p → answer deno p = Normal ()) →
      length xs = length (runner_build (denon d) (script d) (build_calls s)) - 1 →
      let s' := run deno d (ANext :: map AStatus (map Resolved xs))
                  {| gen := GYieldedReload; st := s |} in
      gen s' = GAwaitWatcher
      ∧ last (trace (st s')) = Some EWatcherNext
      ∧ build_calls (st s') = S (build_calls s).
Proof.
  split; [done|]. split.
  { intros o s. unfold after_start. by destruct (truthy (watch o)). }
  split.
  - intros a s Hg Ha. unfold fire. destruct (halted (st s)); [by left|].
    destruct s as [g s]. cbn [gen st] in *.
    destruct g as [| |[|] commands i q| | | |]; try (by destruct Hg).
    + destruct a as [|r|b|p r|sg]; cbn [gen_next gen_status gen_feed];
        try by left.
      * apply continue_reload_loop.
      * destruct (take_monitor p (monitors s)) as [[o l]|]; by left.
      * destruct (take_listener sg (listeners s)) as [l|]; by left.
    + destruct a as [|r|b|p r|sg]; cbn [gen_next gen_status gen_feed];
        try by left.
      * destruct b as [watchE|]; [|done].
        destruct (qualifies watchE); by left.
      * destruct (take_monitor p (monitors s)) as [[o l]|]; by left.
      * destruct (take_listener sg (listeners s)) as [l|]; by left.
    + destruct a as [|r|b|p r|sg]; cbn [gen_next gen_status gen_feed];
        try by left.
      * apply continue_reload_loop.
      * destruct (take_monitor p (monitors s)) as [[o l]|]; by left.
      * destruct (take_listener sg (listeners s)) as [l|]; by left.
  - intros xs s Hh Hok Hlen. cbv zeta.
    rewrite run_cons, fire_live by done. cbn [gen_next].
    rewrite reload_unfold.
    set (sb := announced (config (denon d)) s).
    pose proof (proj2 (killAll_normal deno sb) Hok) as Hn.
    destruct (killAll_frame deno sb) as (Hb & _ & _ & Hhk).
    destruct (killAll deno sb) as [[[]|e] sk]; [|done]. cbn [fst snd] in *.
    rewrite run_statuses.
    2:{ cbn [normal snd]. destruct (start_frame d sk) as (_ & _ & ->).
        by rewrite Hhk. }
    unfold start. rewrite Hb. cbn [build_calls announced sb].
    set (s2 := emit (EBuild (script d)) _).
    destruct (settle_complete (runner_build (denon d) (script d) (build_calls s)) xs s2 Hlen)
      as (Ho & Hh2 & Hq & Hbc).
    destruct (settle _ _) as [o s3]. cbn [fst snd] in *. subst o.
    cbn [continue_start after_start watcher_next lift fst snd gen st].
    split; [done|]. split; [cbn; by rewrite last_snoc|].
    cbn. by rewrite Hbc.
Qed.

(** ** Iterating a daemon *)

Lemma reload_quietly deno d s : quietly s (reload deno d s).2.
Proof.
  rewrite reload_unfold.
  assert (quietly s (announced (config (denon d)) s)) as Hb.
  { destruct (quiet_banner (config (denon d))) as [He Hf]. by eapply quietly_new. }
  pose proof (killAll_quietly deno (announced (config (denon d)) s)) as Hk.
  destruct (killAll deno _) as [[[]|e] sk]; cbn [snd] in Hk.
  - eapply quietly_trans; [exact Hb|]. eapply quietly_trans; [exact Hk|].
    apply start_quietly.
  - by eapply quietly_trans.
Qed.

Lemma start_resume_quietly commands i p x s :
  quietly s (start_resume commands i p x s).2.
Proof.
  unfold start_resume. destruct x as [x|e]; cbn [normal snd].
  - eapply quietly_trans; [|apply start_iteration_quietly]. by apply quietly_emit.
  - by apply quietly_emit.
Qed.

Lemma continue_quiet deno k r s :
  quietly s r.2 →
  ∃ new, trace (continue_start deno k r).2 = trace s ++ new
         ∧ (events new = [] ∨ events new = [EvExit])
         ∧ (continue_start deno k r).1 ≠ GInit.
Proof.
  intros (n1 & H1 & E1 & _).
  destruct (continue_start_trace deno k r) as (n2 & H2 & E2).
  exists (n1 ++ n2). rewrite H2, H1, <- app_assoc, events_app, E1.
  split; [done|]. split; [done|].
  destruct r as [[[o|commands i p]|e] s']; cbn; [|done|done].
  unfold after_start. by destruct k; [destruct (truthy (watch o))|].
Qed.

(** A step that leaves the trace as it was. *)
Ltac silent := exists []; cbn; rewrite app_nil_r; by auto.

(** What one action adds to the events, and from where. *)
Lemma fire_events deno d a s :
  ∃ new,
    trace (st (fire deno d a s)) = trace (st s) ++ new
    ∧ (events new = [] ∨ events new = [EvExit]
       ∨ (∃ b, events new = [EvReload b])
       ∨ (events new = [EvStart] ∧ gen s = GInit
          ∧ gen (fire deno d a s) = GYieldedStart))
    ∧ (gen s ≠ GInit → gen (fire deno d a s) ≠ GInit).
Proof.
  assert (∀ r : GenState * State,
            (∃ new, trace r.2 = trace (st s) ++ new
               ∧ (events new = [] ∨ events new = [EvExit]) ∧ r.1 ≠ GInit) →
            ∃ new, trace (st (lift r)) = trace (st s) ++ new
              ∧ (events new = [] ∨ events new = [EvExit]
                 ∨ (∃ b, events new = [EvReload b])
                 ∨ (events new = [EvStart] ∧ gen s = GInit
                    ∧ gen (lift r) = GYieldedStart))
              ∧ (gen s ≠ GInit → gen (lift r) ≠ GInit)) as Hcont.
  { intros r (n & Hn & He & Hg). exists n. cbn. intuition. }
  unfold fire. destruct (halted (st s)).
  { silent. }
  destruct s as [g s]. cbn [gen st] in *.
  destruct a as [|r|b|p r|sg].
  - destruct g; cbn [gen_next].
    + exists [EYield EvStart]. cbn. split; [done|]. split; [|done].
      right. right. by right.
    + apply Hcont, continue_quiet. apply start_quietly.
    + silent.
    + silent.
    + apply Hcont, continue_quiet. apply reload_quietly.
    + exists [EDone]. cbn. auto.
    + exists [EDone]. cbn. auto.
  - destruct g; cbn [gen_status];
      try silent.
    apply Hcont, continue_quiet. apply start_resume_quietly.
  - destruct g; cbn [gen_feed];
      try silent.
    destruct b as [watchE|]; [destruct (qualifies watchE)|].
    + eexists [_; _]. cbn. rewrite <- app_assoc. split; [done|]. split; [|done].
      right. right. left. by eexists.
    + exists [EWatcherNext]. cbn. auto.
    + exists [EYield EvExit]. cbn. auto.
  - destruct (take_monitor p (monitors s)) as [[o l]|].
    + destruct (monitor_resume_quietly p o r (set_monitors l s)) as (n & Hn & He & _).
      exists n. cbn. auto.
    + silent.
  - destruct (take_listener sg (listeners s)) as [l|].
    + destruct (signal_resume_quietly deno (set_listeners l s)) as (n & Hn & He & _).
      exists n. cbn. auto.
    + silent.
Qed.

Lemma starts_app a b : starts (a ++ b) = starts a + starts b.
Proof. unfold starts. by rewrite events_app, filter_app, length_app. Qed.

Lemma fire_starts deno d a s :
  (gen s ≠ GInit →
   gen (fire deno d a s) ≠ GInit
   ∧ starts (trace (st (fire deno d a s))) = starts (trace (st s)))
  ∧ (gen (fire deno d a s) = GInit →
     starts (trace (st (fire deno d a s))) = starts (trace (st s)))
  ∧ starts (trace (st (fire deno d a s))) ≤ S (starts (trace (st s))).
Proof.
  destruct (fire_events deno d a s) as (new & -> & He & Hg).
  rewrite starts_app.
  assert (starts new = 0 ∨ starts new = 1 ∧ gen s = GInit
                             ∧ gen (fire deno d a s) = GYieldedStart) as [E|(E & Hi & Hy)].
  { unfold starts. destruct He as [->|[->|[[b ->]|(-> & Hi)]]]; auto. }
  - rewrite E. split; [|split; lia]. intros Hne. split; [by apply Hg|lia].
  - rewrite E. split; [done|]. split; [|lia]. rewrite Hy. done.
Qed.

Lemma run_starts deno d sched s :
  (gen s ≠ GInit →
   gen (run deno d sched s) ≠ GInit
   ∧ starts (trace (st (run deno d sched s))) = starts (trace (st s)))
  ∧ starts (trace (st (run deno d sched s))) ≤ S (starts (trace (st s))).
Proof.
  revert s. induction sched as [|a sched IH]; intros s.
  - cbn. split; [done|lia].
  - rewrite run_cons. destruct (IH (fire deno d a s)) as [IH1 IH2].
    destruct (fire_starts deno d a s) as (H1 & H2 & H3). split.
    + intros Hne. destruct (H1 Hne) as [Hg Hs].
      destruct (IH1 Hg) as [Hg' Hs']. split; [done|lia].
    + destruct (gen (fire deno d a s)) eqn:Eg;
        try (destruct IH1 as [_ ->]; [done|exact H3]).
      rewrite <- H2 by done. exact IH2.
Qed.

Lemma run_done deno d sched s :
  gen s = GDone →
  gen (run deno d sched s) = GDone
  ∧ events (trace (st (run deno d sched s))) = events (trace (st s)).
Proof.
  revert s. induction sched as [|a sched IH]; intros s Hg; [done|].
  rewrite run_cons.
  assert (gen (fire deno d a s) = GDone
          ∧ events (trace (st (fire deno d a s))) = events (trace (st s))) as [Hg' He].
  { unfold fire. destruct (halted (st s)); [done|].
    destruct s as [g s]. cbn [gen st] in *. subst g.
    destruct a as [|r|b|p r|sg]; cbn [gen_next gen_status gen_feed lift fst snd gen st];
      try done.
    - split; [done|]. cbn. by rewrite events_app, app_nil_r.
    - destruct (take_monitor p (monitors s)) as [[o l]|]; [|done].
      split; [done|]. cbn [st].
      by rewrite (quietly_events _ _ (monitor_resume_quietly p o r (set_monitors l s))).
    - destruct (take_listener sg (listeners s)) as [l|]; [|done].
      split; [done|]. cbn [st].
      by rewrite (quietly_events _ _ (signal_resume_quietly deno (set_listeners l s))). }
  destruct (IH _ Hg') as [-> ->]. done.
Qed.

(** C9 fails on the code: the same daemon is iterated a second time.  The
    second generator, made by another call of [[Symbol.asyncIterator]()]
    after the first has finished, delivers [start] again and runs the chain
    again. *)
Lemma daemon_iterates_twice :
  let first := run unix daemonB [ANext; ANext; ANext] boot in
  let second := run unix daemonB [ANext; ANext; ANext]
                  {| gen := asyncIterator; st := st first |} in
  gen first = GDone
  ∧ events (trace (st first)) = [EvStart; EvExit]
  ∧ events (trace (st second)) = [EvStart; EvExit; EvStart; EvExit]
  ∧ build_calls (st second) = 2.
Proof. cbv zeta. by vm_compute. Qed.

(** ** The scenarios of the specification *)

(** Scenario A: [echo setup; sleep 100] with watching on, one modify batch.
    The old main process is killed, the chain runs again, and the registry
    holds the new main process only. *)
Example scenario_A :
  let s := run unix daemonA
             [ANext; ANext; AStatus ok; AFeed (Some modify_batch); ANext; AStatus ok]
             boot in
  events (trace (st s)) = [EvStart; EvReload modify_batch]
  ∧ terminated (trace (st s)) = [101%N]
  ∧ processes (st s) = {[ 103%N := {| pid := 103; rid := 6 |} ]}
  ∧ gen s = GAwaitWatcher.
Proof. cbv zeta. by vm_compute. Qed.

(** Scenario C: two batches without a modify record, then one with. *)
Example scenario_C :
  let s := run unix daemonA
             [ANext; ANext; AStatus ok; AFeed (Some access_batch);
              AFeed (Some access_batch); AFeed (Some modify_batch)]
             boot in
  events (trace (st s)) = [EvStart; EvReload modify_batch]
  ∧ feed_pulls (trace (st s)) = 3
  ∧ build_calls (st s) = 1
  ∧ gen s = GYieldedReload.
Proof. cbv zeta. by vm_compute. Qed.

(** The natural exit of the main process of scenario A, then a reload:
    [killAll] finds the registry empty and requests nothing. *)
Example exit_then_reload :
  let s := run unix daemonA
             [ANext; ANext; AStatus ok; AMonitor {| pid := 101; rid := 4 |} failed;
              AFeed (Some modify_batch); ANext]
             boot in
  terminated (trace (st s)) = []
  ∧ verdicts 101 (trace (st s)) = [ExitedOnItsOwn]
  ∧ ELog Error (Lit "app crashed - waiting for file changes before starting ...")
    ∈ trace (st s).
Proof.
  cbv zeta. split; [by vm_compute|]. split; [by vm_compute|].
  apply (bool_decide_unpack _). by vm_compute.
Qed.

(** After the first reload the main command's options say [watch: false];
    the loop still takes the next batch and reloads again. *)
Example reload_after_unwatched_rebuild :
  let s := run unix daemonD
             [ANext; ANext; AFeed (Some modify_batch); ANext;
              AFeed (Some modify_batch); ANext]
             boot in
  events (trace (st s))
  = [EvStart; EvReload modify_batch; EvReload modify_batch]
  ∧ build_calls (st s) = 3
  ∧ gen s = GAwaitWatcher.
Proof. cbv zeta. by vm_compute. Qed.

(** A signal after the start: everything is killed and the process exits;
    nothing runs afterwards. *)
Example signal_kills_and_exits :
  let s := run unix daemonA
             [ANext; ANext; AStatus ok; ASignal SIGINT; AFeed (Some modify_batch); ANext]
             boot in
  terminated (trace (st s)) = [101%N]
  ∧ last (trace (st s)) = Some (EExit 0)
  ∧ halted (st s) = true
  ∧ events (trace (st s)) = [EvStart].
Proof. cbv zeta. by vm_compute. Qed.

(** * Further properties of the daemon *)

(** ** killAll, once more *)

Lemma for_in_empty : for_in ∅ = [].
Proof. unfold for_in. by rewrite map_to_list_empty. Qed.

Lemma killAll_empty deno s :
  processes s = ∅ →
  killAll deno s
  = (Normal (),
     set_processes ∅ (log Debug (WithNum "K: killing " 0 " process[es]") s)).
Proof.
  intros Hs. rewrite killAll_unfold, Hs, for_in_empty, map_size_empty. done.
Qed.

(** X1. [killAll] is idempotent: whatever a first call did, returned or
    threw, a second call right after it finds the registry empty, logs that
    it kills 0 processes, requests no termination and returns normally. *)
Theorem killAll_twice (deno : Platform) (s : State) :
  let r1 := killAll deno s in
  let r2 := killAll deno r1.2 in
  r2.1 = Normal ()
  ∧ processes r2.2 = ∅
  ∧ trace r2.2
    = trace r1.2 ++ [ELog Debug (WithNum "K: killing " 0 " process[es]")]
  ∧ monitors r2.2 = monitors s ∧ listeners r2.2 = listeners s
  ∧ halted r2.2 = halted s ∧ build_calls r2.2 = build_calls s.
Proof.
  cbv zeta. rewrite (killAll_empty deno (killAll deno s).2) by apply killAll_processes.
  destruct (killAll_frame deno s) as (Hb & Hm & Hl & Hh). cbn.
  by rewrite Hb, Hm, Hl, Hh.
Qed.

Lemma requests_app a b : requests (a ++ b) = requests a ++ requests b.
Proof. apply omap_app. Qed.

Lemma requests_served deno (served : list (N * Process)) :
  requests (flat_map (λ kp, termination_effects deno kp.2) served)
  = map (λ kp, request_effect deno kp.2) served.
Proof.
  induction served as [|[k p] l IH]; [done|].
  cbn [flat_map map]. rewrite requests_app, IH.
  unfold termination_effects, request_effect.
  by destruct (decide (build_os deno = Windows)).
Qed.

(** X2. The platform decides the kind of every termination request: on
    Windows [killAll] closes the handles of the snapshot and never calls
    [Deno.kill]; elsewhere it sends SIGKILL to their pids and never closes a
    handle.  The requests go to the handles of the snapshot in the order of
    the loop, to all of them when the call returns normally. *)
Theorem killAll_requests_by_platform (deno : Platform) (s : State) :
  ∃ served rest new,
    for_in (processes s) = served ++ rest
    ∧ trace (killAll deno s).2 = trace s ++ new
    ∧ requests new
      = map (λ kp, if decide (build_os deno = Windows) then EClose kp.2
                   else EKill (pid kp.2) SIGKILL) served
    ∧ ((killAll deno s).1 = Normal () → rest = []).
Proof.
  rewrite killAll_unfold. set (c := set_processes _ _).
  destruct (kill_loop_trace deno (for_in (processes s)) c)
    as (served & rest & Hl & Ht & Hn).
  exists served, rest.
  exists (ELog Debug (WithNum "K: killing " (size (processes s)) " process[es]")
          :: flat_map (λ kp, termination_effects deno kp.2) served).
  split; [done|]. split.
  { rewrite Ht. subst c. cbn. by rewrite <- app_assoc. }
  split; [|done].
  change (?x :: ?l) with ([x] ++ l). rewrite requests_app, requests_served. done.
Qed.

(** ** monitor, once more *)

(** X3. The continuation of a monitor touches no entry of the registry but
    the one under the pid of its own process, whatever the status and
    whether or not that pid is registered; and it never adds an entry. *)
Theorem monitor_touches_only_its_pid (process : Process)
    (options : ScriptOptions) (r : Settled ProcessStatus) (s : State) :
  let s' := monitor_resume process options r s in
  (∀ k, k ≠ pid process → processes s' !! k = processes s !! k)
  ∧ processes s' !! pid process = None
  ∧ processes s' ⊆ processes s.
Proof.
  cbv zeta. rewrite monitor_resume_processes.
  destruct (processes s !! pid process) as [q|] eqn:E.
  - split; [intros k Hk; by rewrite lookup_delete_ne|].
    split; [by rewrite lookup_delete_eq|apply delete_subseteq].
  - split; [done|]. split; [done|reflexivity].
Qed.

(** ** reload, once more *)

Lemma reload_frame deno d s :
  match (reload deno d s).1 with
  | Normal _ => build_calls (reload deno d s).2 = S (build_calls s)
  | Throw _ =>
      build_calls (reload deno d s).2 = build_calls s
      ∧ processes (reload deno d s).2 = ∅
      ∧ monitors (reload deno d s).2 = monitors s
  end
  ∧ listeners (reload deno d s).2 = listeners s
  ∧ halted (reload deno d s).2 = halted s.
Proof.
  rewrite reload_unfold. set (sb := announced (config (denon d)) s).
  destruct (killAll_frame deno sb) as (Hb & Hm & Hl & Hh).
  pose proof (killAll_processes deno sb) as Hp.
  destruct (killAll deno sb) as [[[]|e] sk]; cbn [fst snd normal] in *.
  - destruct (start_frame d sk) as (-> & -> & ->). by rewrite Hb, Hl, Hh.
  - by rewrite Hb, Hl, Hh, Hm, Hp.
Qed.

(** X4. [reload] restarts the chain exactly when no termination request of
    its [killAll] throws.  If one throws, [reload] throws the same way
    before [runner.build] is called again: the registry is left empty, no
    new main process is started or monitored, and the generator that was
    resumed into the reload is finished. *)
Theorem reload_aborts_when_kill_throws (deno : Platform) (d : Daemon) (s : State) :
  ((∃ o, (reload deno d s).1 = Normal o)
   ↔ ∀ k p, processes s !! k = Some p → answer deno p = Normal ())
  ∧ (∀ o, (reload deno d s).1 = Normal o →
       build_calls (reload deno d s).2 = S (build_calls s))
  ∧ ∀ e, (reload deno d s).1 = Throw e →
      build_calls (reload deno d s).2 = build_calls s
      ∧ processes (reload deno d s).2 = ∅
      ∧ monitors (reload deno d s).2 = monitors s
      ∧ (gen_next deno d GYieldedReload s).1 = GDone
      ∧ last (trace (gen_next deno d GYieldedReload s).2) = Some (ERaise e).
Proof.
  split; [|split].
  - rewrite <- (killAll_normal deno (announced (config (denon d)) s)).
    rewrite reload_unfold.
    destruct (killAll deno (announced (config (denon d)) s)) as [[[]|e] sk];
      cbn [fst snd normal].
    + split; [done|]. intros _. by eexists.
    + split; [by intros [o Ho]|done].
  - intros o Ho. destruct (reload_frame deno d s) as (H & _).
    by rewrite Ho in H.
  - intros e He. destruct (reload_frame deno d s) as (H & _).
    rewrite He in H. destruct H as (Hb & Hp & Hm).
    split; [done|]. split; [done|]. split; [done|].
    cbn [gen_next]. destruct (reload deno d s) as [c sr]. cbn [fst] in He.
    subst c. cbn. split; [done|]. by rewrite last_snoc.
Qed.

(** An effect that differs from every member of an explicit list. *)
Ltac absent :=
  let H := fresh in
  intros H;
  repeat (apply elem_of_cons in H as [H|H]; [discriminate H|]);
  by apply elem_of_nil in H.

Lemma start_iteration_no_clear commands i s :
  ∃ new, trace (start_iteration commands i s).2 = trace s ++ new ∧ EClear ∉ new.
Proof.
  destruct (commands !! i) as [c|] eqn:E.
  - destruct (decide (i = length commands - 1)) as [Hi|Hi].
    + destruct (start_iteration_main commands i c s E Hi) as (_ & Ht & _).
      exists (main_effects c). split; [done|]. unfold main_effects. absent.
    + destruct (start_iteration_sequential commands i c s E Hi) as (_ & Ht & _).
      exists (sequential_effects c). split; [done|].
      unfold sequential_effects. absent.
  - rewrite start_iteration_beyond by done. exists []. rewrite app_nil_r.
    split; [done|]. apply not_elem_of_nil.
Qed.

Lemma served_no_clear deno (served : list (N * Process)) :
  EClear ∉ flat_map (λ kp, termination_effects deno kp.2) served.
Proof.
  induction served as [|[k p] l IH]; [apply not_elem_of_nil|].
  cbn [flat_map]. rewrite elem_of_app. intros [H|H]; [|done].
  revert H. unfold termination_effects.
  destruct (decide (build_os deno = Windows)); absent.
Qed.

(** X5. [reload] announces itself before it kills.  Its first effects are
    the banner: the clearing of the console, if and only if a logger
    configuration with [fullscreen] set exists; the watched paths, if and
    only if [watcher.match] is set; the watched extensions, if and only if
    [watcher.exts] is set; and always, last, the line "restarting due to
    changes...".  Right after the banner [killAll] logs the number of
    processes it kills, and nothing after the banner clears the console. *)
Theorem reload_announces_before_killing (deno : Platform) (d : Daemon) (s : State) :
  let cfg := config (denon d) in
  (∃ tail,
     trace (reload deno d s).2
     = trace s ++ reload_banner cfg
       ++ ELog Debug (WithNum "K: killing " (size (processes s)) " process[es]") :: tail
     ∧ EClear ∉ tail)
  ∧ last (reload_banner cfg) = Some (ELog Info (Lit "restarting due to changes..."))
  ∧ (EClear ∈ reload_banner cfg ↔ ∃ l, logger cfg = Some l ∧ fullscreen l = true)
  ∧ (∀ m, ELog Info (WithJoin "watching path(s): " m " ") ∈ reload_banner cfg
          ↔ match_ (watcher cfg) = Some m)
  ∧ (∀ x, ELog Info (WithJoin "watching extensions: " x ",") ∈ reload_banner cfg
          ↔ exts (watcher cfg) = Some x).
Proof.
  cbv zeta. split.
  - rewrite reload_unfold. set (sb := announced (config (denon d)) s).
    destruct (kill_loop_trace deno (for_in (processes s))
                (set_processes ∅ (log Debug (WithNum "K: killing " (size (processes s)) " process[es]") sb)))
      as (served & rest & _ & Ht & _).
    change (kill_loop deno _ _) with (killAll deno sb) in Ht.
    destruct (killAll deno sb) as [[[]|e] sk]; cbn [fst snd normal] in *.
    + unfold start.
      destruct (start_iteration_no_clear
                  (runner_build (denon d) (script d) (build_calls sk)) 0
                  (emit (EBuild (script d)) (set_build_calls (S (build_calls sk)) sk)))
        as (new & Hn & Hc).
      exists (flat_map (λ kp, termination_effects deno kp.2) served
              ++ EBuild (script d) :: new).
      split.
      * rewrite Hn. cbn. rewrite Ht. cbn. rewrite <- !app_assoc. cbn.
        by rewrite <- ?app_assoc.
      * rewrite elem_of_app, elem_of_cons.
        intros [H|[H|H]]; [by apply (served_no_clear deno served)|done|done].
    + exists (flat_map (λ kp, termination_effects deno kp.2) served).
      split; [|apply served_no_clear].
      rewrite Ht. cbn. rewrite <- !app_assoc. cbn. by rewrite <- ?app_assoc.
  - unfold reload_banner.
    destruct (logger (config (denon d))) as [[[|]]|];
      destruct (match_ (watcher (config (denon d)))) as [m0|];
      destruct (exts (watcher (config (denon d)))) as [x0|];
      cbn [app];
      (split; [done|]);
      (split; [split;
                 [intros H; repeat (apply elem_of_cons in H as [H|H]; [try discriminate H|]);
                  try (by apply elem_of_nil in H); by eexists
                 |intros (l & Hl & Hf); try discriminate Hl;
                  try (injection Hl as <-; discriminate Hf); apply list_elem_of_In; cbn; tauto]|]);
      (split; intros y; split;
         [intros H; repeat (apply elem_of_cons in H as [H|H]; [try discriminate H|]);
          try (by apply elem_of_nil in H); congruence
         |intros Hy; try discriminate Hy; injection Hy as <-;
          apply list_elem_of_In; cbn; tauto
         |intros H; repeat (apply elem_of_cons in H as [H|H]; [try discriminate H|]);
          try (by apply elem_of_nil in H); congruence
         |intros Hy; try discriminate Hy; injection Hy as <-;
          apply list_elem_of_In; cbn; tauto]).
Qed.

(** ** The registry and its monitors *)

Lemma supervised_same s s' :
  processes s' = processes s → monitors s' = monitors s →
  supervised s → supervised s'.
Proof.
  intros Hp Hm [Hk Hmon]. split.
  - unfold keyed_by_pid. by rewrite Hp.
  - unfold monitored. rewrite Hp, Hm. exact Hmon.
Qed.

Lemma supervised_cleared (s' : State) : processes s' = ∅ → supervised s'.
Proof.
  intros Hp. split.
  - intros k p. by rewrite Hp, lookup_empty.
  - intros k p. by rewrite Hp, lookup_empty.
Qed.

Lemma supervised_start_iteration commands i s :
  supervised s → supervised (start_iteration commands i s).2.
Proof.
  intros [Hk Hmon].
  destruct (commands !! i) as [c|] eqn:E.
  - destruct (decide (i = length commands - 1)) as [Hi|Hi].
    + destruct (start_iteration_main commands i c s E Hi) as (_ & _ & Hp & Hm & _).
      split.
      * intros k p. rewrite Hp. intros Hkp.
        apply lookup_insert_Some in Hkp as [[<- <-]|[_ Hkp]]; [done|by apply Hk].
      * intros k p. rewrite Hp, Hm. intros Hkp.
        apply lookup_insert_Some in Hkp as [[<- <-]|[_ Hkp]].
        -- exists (options c). set_solver.
        -- destruct (Hmon k p Hkp) as [o Ho]. exists o. set_solver.
    + destruct (start_iteration_sequential commands i c s E Hi) as (_ & _ & Hp & Hm & _).
      by apply (supervised_same s).
  - by rewrite start_iteration_beyond.
Qed.

Lemma take_monitor_other p l o l' q o' :
  take_monitor p l = Some (o, l') → (q, o') ∈ l → q ≠ p → (q, o') ∈ l'.
Proof.
  revert o l'. induction l as [|[q0 o0] l IH]; intros o l' Ht Hin Hne; [done|].
  cbn in Ht. destruct (decide (q0 = p)) as [->|Hq].
  - injection Ht as <- <-. apply elem_of_cons in Hin as [Heq|Hin]; [|done].
    injection Heq as -> ->. done.
  - destruct (take_monitor p l) as [[o1 l1]|]; [|done]. injection Ht as <- <-.
    apply elem_of_cons in Hin as [->|Hin]; [set_solver|].
    apply elem_of_cons. right. by apply (IH o1 l1).
Qed.

Lemma supervised_monitor_resume p o l r s :
  take_monitor p (monitors s) = Some (o, l) →
  supervised s → supervised (monitor_resume p o r (set_monitors l s)).
Proof.
  intros Ht [Hk Hmon].
  destruct (monitor_resume_frame p o r (set_monitors l s)) as (_ & Hm & _).
  pose proof (monitor_resume_processes p o r (set_monitors l s)) as Hp.
  cbn in Hp, Hm.
  assert (∀ k q, processes (monitor_resume p o r (set_monitors l s)) !! k = Some q →
            processes s !! k = Some q ∧ k ≠ pid p) as Hsub.
  { intros k q. rewrite Hp. destruct (processes s !! pid p) as [q0|] eqn:E.
    - intros Hkq. apply lookup_delete_Some in Hkq as [? ?]. done.
    - intros Hkq. split; [done|]. intros ->. congruence. }
  split.
  - intros k q Hkq. apply Hsub in Hkq as [Hkq _]. by apply Hk.
  - intros k q Hkq. apply Hsub in Hkq as [Hkq Hne].
    destruct (Hmon k q Hkq) as [o' Ho']. exists o'. rewrite Hm.
    apply (take_monitor_other p (monitors s) o l q o' Ht Ho').
    intros ->. apply Hk in Hkq. done.
Qed.

Lemma continue_start_registry deno k r :
  processes (continue_start deno k r).2 = processes r.2
  ∧ monitors (continue_start deno k r).2 = monitors r.2
  ∧ build_calls (continue_start deno k r).2 = build_calls r.2.
Proof.
  destruct r as [[[o|commands i p]|e] s]; cbn; [|done|done].
  by destruct (after_start_state deno k o s) as (-> & -> & -> & _).
Qed.

Lemma supervised_continue deno k r :
  supervised r.2 → supervised (continue_start deno k r).2.
Proof.
  destruct (continue_start_registry deno k r) as (Hp & Hm & _).
  by apply supervised_same.
Qed.

Lemma fire_supervised deno d a s :
  supervised (st s) → supervised (st (fire deno d a s)).
Proof.
  intros Hs. unfold fire. destruct (halted (st s)); [done|].
  destruct s as [g s]. cbn [gen st] in *.
  destruct a as [|r|b|p r|sg].
  - destruct g; cbn [gen_next lift fst snd st];
      try by apply (supervised_same s).
    + apply supervised_continue. cbn [normal snd]. unfold start.
      apply supervised_start_iteration. by apply (supervised_same s).
    + apply supervised_continue. rewrite reload_unfold.
      pose proof (killAll_processes deno (announced (config (denon d)) s)) as Hk.
      destruct (killAll deno _) as [[[]|e] sk]; cbn [fst snd normal] in *.
      * unfold start. apply supervised_start_iteration.
        by apply supervised_cleared.
      * by apply supervised_cleared.
  - destruct g; cbn [gen_status lift fst snd st];
      try by apply (supervised_same s).
    apply supervised_continue. unfold start_resume.
    destruct r as [x|e]; cbn [normal snd].
    + apply supervised_start_iteration. by apply (supervised_same s).
    + by apply (supervised_same s).
  - destruct g; cbn [gen_feed lift fst snd st];
      try by apply (supervised_same s).
    destruct b as [watchE|]; [destruct (qualifies watchE)|];
      by apply (supervised_same s).
  - destruct (take_monitor p (monitors s)) as [[o l]|] eqn:Ht; [|done].
    cbn [st]. by apply supervised_monitor_resume.
  - destruct (take_listener sg (listeners s)) as [l|]; [|done].
    cbn [st]. unfold signal_resume.
    pose proof (killAll_processes deno (set_listeners l s)) as Hk.
    destruct (killAll deno _) as [[[]|e] sk]; cbn [snd] in Hk;
      by apply supervised_cleared.
Qed.

(** X6. What [start], [monitor], [killAll] and the generator do to the
    registry keeps it supervised: every entry sits under the pid of its own
    handle, and every registered handle has a monitor suspended on its
    status.  The property survives every action of the outside world, in
    every order, for every generator state (so also when a daemon is
    iterated more than once). *)
Theorem registry_stays_supervised (deno : Platform) (d : Daemon)
    (sched : list Action) (s : Sys) :
  supervised (st s) → supervised (st (run deno d sched s)).
Proof.
  revert s. induction sched as [|a sched IH]; intros s Hs; [done|].
  rewrite run_cons. apply IH. by apply fire_supervised.
Qed.

(** Scenario A up to its first reload. *)
Lemma registry_stays_supervised_witness :
  supervised
    (st (run unix daemonA
           [ANext; ANext; AStatus ok; AFeed (Some modify_batch); ANext; AStatus ok]
           boot)).
Proof.
  apply (registry_stays_supervised unix daemonA
           [ANext; ANext; AStatus ok; AFeed (Some modify_batch); ANext; AStatus ok]
           boot).
  split; intros k p Hkp; cbn in Hkp; by rewrite lookup_empty in Hkp.
Defined.

(** ** Signals *)

Lemma onExit_windows deno s : build_os deno = Windows → onExit deno s = s.
Proof. intros Hw. unfold onExit. by rewrite decide_False by (by intros []). Qed.

Lemma start_resume_frame commands i p x s :
  build_calls (start_resume commands i p x s).2 = build_calls s
  ∧ listeners (start_resume commands i p x s).2 = listeners s.
Proof.
  unfold start_resume. destruct x as [x|e]; [|done]. cbn [normal snd].
  by destruct (start_iteration_frame commands (S i) (emit (ESettled p (Resolved x)) s))
    as (-> & -> & _).
Qed.

Lemma continue_start_unarmed deno k r :
  build_os deno = Windows ∨ early (continue_start deno k r).1 →
  listeners (continue_start deno k r).2 = listeners r.2
  ∧ (early (continue_start deno k r).1 → k = FromIterate).
Proof.
  destruct r as [[[o|commands i p]|e] s]; cbn [continue_start fst snd].
  - unfold after_start, watcher_next, yield_exit.
    destruct k; [destruct (truthy (watch o))|]; cbn; intros [Hw|[]];
      rewrite ?onExit_windows by done; by split.
  - intros _. split; [done|]. by destruct k.
  - intros [Hw|[]]. by split.
Qed.

Lemma fire_unarmed deno d a s : unarmed deno s → unarmed deno (fire deno d a s).
Proof.
  intros Hs. unfold fire. destruct (halted (st s)) eqn:Hh; [done|].
  destruct s as [g s]. unfold unarmed in *. cbn [gen st] in *.
  destruct a as [|r|b|p r|sg].
  - destruct g; cbn [gen_next lift fst snd gen st].
    + intros _. destruct Hs as [Hl _]; [by right|]. by split.
    + intros Hpre. destruct Hs as [Hl _]; [by right|].
      destruct (continue_start_unarmed deno FromIterate (normal (start d s)) Hpre)
        as [-> _].
      rewrite continue_start_halted. cbn [normal snd].
      by destruct (start_frame d s) as (_ & -> & ->).
    + done.
    + done.
    + intros Hpre.
      destruct (continue_start_unarmed deno FromReload (reload deno d s) Hpre)
        as [-> He].
      rewrite continue_start_halted.
      destruct (reload_frame deno d s) as (_ & -> & ->).
      destruct Hpre as [Hw|Hpre]; [|by specialize (He Hpre)].
      destruct Hs as [Hl _]; [by left|]. by split.
    + intros [Hw|[]]. destruct Hs as [Hl _]; [by left|]. by split.
    + intros [Hw|[]]. destruct Hs as [Hl _]; [by left|]. by split.
  - destruct g; cbn [gen_status lift fst snd gen st]; try done.
    intros Hpre.
    destruct (continue_start_unarmed deno k (start_resume commands i process r s) Hpre)
      as [-> He].
    rewrite continue_start_halted, start_resume_halted.
    destruct (start_resume_frame commands i process r s) as (_ & ->).
    destruct Hs as [Hl _]; [|by split].
    destruct Hpre as [Hw|Hpre]; [by left|right]. by rewrite (He Hpre).
  - destruct g; cbn [gen_feed lift fst snd gen st]; try done.
    destruct b as [watchE|]; [destruct (qualifies watchE)|]; cbn;
      intros [Hw|[]]; (destruct Hs as [Hl _]; [by left|]); by split.
  - destruct (take_monitor p (monitors s)) as [[o l]|]; [|done].
    cbn [gen st]. intros Hpre. destruct (Hs Hpre) as [Hl _].
    by destruct (monitor_resume_frame p o r (set_monitors l s)) as (_ & _ & -> & ->).
  - destruct (take_listener sg (listeners s)) as [l|] eqn:Ht; [|done].
    cbn [gen st]. intros Hpre. destruct (Hs Hpre) as [Hl _].
    rewrite Hl in Ht. done.
Qed.

Lemma run_unarmed deno d sched s : unarmed deno s → unarmed deno (run deno d sched s).
Proof.
  revert s. induction sched as [|a sched IH]; intros s Hs; [done|].
  rewrite run_cons. apply IH. by apply fire_unarmed.
Qed.

Lemma boot_unarmed deno : unarmed deno boot.
Proof. by intros _. Qed.

Lemma fire_signal_unheard deno d sg s :
  listeners (st s) = [] → fire deno d (ASignal sg) s = s.
Proof. intros Hl. unfold fire. rewrite Hl. by destruct (halted (st s)). Qed.

Lemma run_halted deno d sched s : halted (st s) = true → run deno d sched s = s.
Proof.
  intros Hh. induction sched as [|a sched IH]; [done|].
  rewrite run_cons. replace (fire deno d a s) with s; [done|].
  unfold fire. by rewrite Hh.
Qed.

Lemma take_listener_elem sg l : sg ∈ l → ∃ l', take_listener sg l = Some l'.
Proof.
  induction l as [|s0 l IH]; [by intros ?%elem_of_nil|].
  intros Hin. cbn. destruct (decide (s0 = sg)) as [->|Hne]; [by eexists|].
  apply elem_of_cons in Hin as [->|Hin]; [done|].
  destruct (IH Hin) as [l' ->]. by eexists.
Qed.

(** X9. A signal that a suspended signal task waits for runs [killAll]
    and then [Deno.exit(0)].  The registry is empty afterwards.  If no
    termination request throws, [Deno.exit(0)] is the last effect, and no
    later action of the outside world changes anything: no event is
    delivered, nothing is spawned.  If a request throws, the task ends with
    the uncaught error and [Deno.exit] is not called by it. *)
Theorem signal_kills_all_and_exits (deno : Platform) (d : Daemon)
    (sg : Signal) (s : Sys) :
  halted (st s) = false → sg ∈ listeners (st s) →
  let s' := fire deno d (ASignal sg) s in
  processes (st s') = ∅
  ∧ gen s' = gen s
  ∧ events (trace (st s')) = events (trace (st s))
  ∧ ((∀ k p, processes (st s) !! k = Some p → answer deno p = Normal ()) →
     halted (st s') = true
     ∧ last (trace (st s')) = Some (EExit 0)
     ∧ ∀ sched, run deno d sched s' = s')
  ∧ ((∃ k p e, processes (st s) !! k = Some p ∧ answer deno p = Throw e) →
     halted (st s') = false
     ∧ ∃ e, last (trace (st s')) = Some (EUncaught e)).
Proof.
  intros Hh Hin. cbv zeta.
  destruct (take_listener_elem sg _ Hin) as [l Hl].
  destruct s as [g s]. cbn [gen st] in *.
  rewrite fire_live by done. rewrite Hl. cbn [gen st].
  pose proof (signal_resume_quietly deno (set_listeners l s)) as Hq.
  apply quietly_events in Hq. cbn in Hq. split; [|split; [done|split; [done|]]].
  - unfold signal_resume.
    pose proof (killAll_processes deno (set_listeners l s)) as Hk.
    by destruct (killAll deno _) as [[[]|e] sk].
  - unfold signal_resume.
    pose proof (killAll_normal deno (set_listeners l s)) as Hn.
    destruct (killAll_frame deno (set_listeners l s)) as (_ & _ & _ & Hhk).
    destruct (killAll deno (set_listeners l s)) as [[[]|e] sk];
      cbn [fst snd] in *.
    + split.
      * intros _. split; [done|]. split; [cbn; by rewrite last_snoc|].
        intros sched. by apply run_halted.
      * intros (k & p & e & Hkp & Ha).
        rewrite (proj1 Hn eq_refl k p Hkp) in Ha. discriminate.
    + split.
      * intros Hok. apply Hn in Hok. discriminate.
      * intros _. split; [cbn; by rewrite Hhk|].
        exists e. cbn. by rewrite last_snoc.
Qed.

(** Scenario A, interrupted after its start. *)
Lemma signal_kills_all_and_exits_witness :
  processes (st (fire unix daemonA (ASignal SIGINT)
                   (run unix daemonA [ANext; ANext; AStatus ok] boot))) = ∅.
Proof.
  destruct (signal_kills_all_and_exits unix daemonA SIGINT
              (run unix daemonA [ANext; ANext; AStatus ok] boot)) as (H & _).
  - reflexivity.
  - apply (bool_decide_unpack _). by vm_compute.
  - exact H.
Defined.

(** ** The shape of the event stream *)

(** Where [continue_start] leaves the generator, and what it delivers. *)
Lemma continue_start_cases deno k r :
  build_calls (continue_start deno k r).2 = build_calls r.2
  ∧ ((∃ commands i p, (continue_start deno k r).1 = GAwaitStatus k commands i p
        ∧ events (trace (continue_start deno k r).2) = events (trace r.2))
     ∨ ((continue_start deno k r).1 = GAwaitWatcher
        ∧ events (trace (continue_start deno k r).2) = events (trace r.2))
     ∨ ((continue_start deno k r).1 = GYieldedExit ∧ k = FromIterate
        ∧ events (trace (continue_start deno k r).2) = events (trace r.2) ++ [EvExit])
     ∨ ((continue_start deno k r).1 = GDone
        ∧ events (trace (continue_start deno k r).2) = events (trace r.2))).
Proof.
  split; [by destruct (continue_start_registry deno k r) as (_ & _ & ->)|].
  destruct r as [[[o|commands i p]|e] s]; cbn [continue_start fst snd].
  - unfold after_start, watcher_next, yield_exit.
    destruct (onExit_state deno s) as (Hq & _). apply quietly_events in Hq.
    destruct k; [destruct (truthy (watch o))|]; cbn [fst snd emit trace].
    + right. left. split; [done|]. by rewrite events_app, Hq, app_nil_r.
    + right. right. left. split; [done|]. split; [done|]. by rewrite events_app, Hq.
    + right. left. split; [done|]. by rewrite events_app, app_nil_r.
  - left. by exists commands, i, p.
  - right. right. right. split; [done|]. cbn. by rewrite events_app, app_nil_r.
Qed.

Lemma launches_shape (bs : list (list FileEvent)) :
  launches [] = 0
  ∧ ∀ t, (events t = EvStart :: map EvReload bs
          ∨ events t = EvStart :: map EvReload bs ++ [EvExit]) →
         launches t = S (length bs).
Proof.
  split; [done|]. intros t Ht. unfold launches.
  assert (∀ l : list (list FileEvent),
            length (filter (λ ev, ev ≠ EvExit) (map EvReload l)) = length l) as Hr.
  { induction l as [|b l IH]; [done|]. cbn [map].
    rewrite filter_cons_True by done. cbn. by rewrite IH. }
  destruct Ht as [->| ->].
  - rewrite filter_cons_True by done. cbn. by rewrite Hr.
  - rewrite filter_cons_True by done. cbn [length].
    rewrite filter_app, length_app, Hr.
    rewrite filter_cons_False by (intros H; by apply H). cbn. lia.
Qed.

Lemma stream_inv_quietly g s s' :
  quietly s s' → build_calls s' = build_calls s →
  stream_inv {| gen := g; st := s |} → stream_inv {| gen := g; st := s' |}.
Proof.
  intros Hq Hb (bs & Hbs & Hg). exists bs. split; [done|].
  cbn [gen st] in *. by rewrite (quietly_events _ _ Hq), Hb.
Qed.

(** What the generator is after [continue_start], given what it had
    delivered before: [start] alone, or [start] and the reloads of [bs]. *)
Lemma continue_stream deno k r (bs : list (list FileEvent)) :
  Forall (λ b, qualifies b = true) bs →
  events (trace r.2) = EvStart :: map EvReload bs →
  build_calls r.2 ≤ S (length bs) →
  (k = FromIterate → bs = [] ∧ build_calls r.2 = 1) →
  stream_inv (lift (continue_start deno k r)).
Proof.
  intros Hbs He Hb Hk.
  destruct (continue_start_cases deno k r)
    as (Hbc & [(commands & i & p & Hg & Hev)|[[Hg Hev]|[(Hg & Hki & Hev)|[Hg Hev]]]]);
    exists bs; (split; [done|]); unfold lift; cbn [gen st]; rewrite Hg, Hev, Hbc, He.
  - destruct k; [|done]. destruct (Hk eq_refl) as [-> ->]. done.
  - done.
  - done.
  - split; [by left|done].
Qed.

Lemma fire_stream deno d a s : stream_inv s → stream_inv (fire deno d a s).
Proof.
  intros Hs. unfold fire. destruct (halted (st s)); [done|].
  destruct s as [g s]. pose proof Hs as (bs & Hbs & Hg). cbn [gen st] in *.
  destruct a as [|r|b|p r|sg].
  - destruct g; cbn [gen_next].
    + destruct Hg as [He Hb]. exists []. split; [done|]. cbn.
      by rewrite events_app, He.
    + destruct Hg as [He Hb].
      apply (continue_stream deno FromIterate (normal (start d s)) []); cbn [normal snd].
      * done.
      * by rewrite (quietly_events _ _ (start_quietly d s)).
      * destruct (start_frame d s) as (-> & _). cbn. lia.
      * intros _. split; [done|]. destruct (start_frame d s) as (-> & _). lia.
    + done.
    + done.
    + destruct Hg as [He Hb].
      apply (continue_stream deno FromReload (reload deno d s) bs); try done.
      * by rewrite (quietly_events _ _ (reload_quietly deno d s)).
      * destruct (reload_frame deno d s) as (H & _).
        destruct (reload deno d s).1; [lia|]. destruct H as (-> & _). lia.
    + destruct Hg as [He Hb]. exists bs. split; [done|]. cbn.
      rewrite events_app, app_nil_r. split; [by right|done].
    + destruct Hg as [He Hb]. exists bs. split; [done|]. cbn.
      by rewrite events_app, app_nil_r.
  - destruct g; cbn [gen_status]; try done.
    pose proof (quietly_events _ _ (start_resume_quietly commands i process r s)) as Hq.
    destruct (start_resume_frame commands i process r s) as (Hbc & _).
    destruct k.
    + destruct Hg as [He Hb].
      apply (continue_stream deno FromIterate _ []); try done.
      * by rewrite Hq.
      * rewrite Hbc. cbn. lia.
      * intros _. by rewrite Hbc.
    + destruct Hg as [He Hb].
      apply (continue_stream deno FromReload _ bs); try done.
      * by rewrite Hq.
      * by rewrite Hbc.
  - destruct g; cbn [gen_feed]; try done.
    destruct Hg as [He Hb].
    destruct b as [watchE|]; [destruct (qualifies watchE) eqn:Eq|].
    + exists (bs ++ [watchE]). split; [apply Forall_app; by split; [|constructor]|].
      cbn. rewrite <- app_assoc, events_app, He, map_app, length_app. cbn.
      split; [done|lia].
    + exists bs. split; [done|]. cbn. by rewrite events_app, app_nil_r.
    + exists bs. split; [done|]. cbn. by rewrite events_app, He.
  - destruct (take_monitor p (monitors s)) as [[o l]|]; [|done].
    eapply stream_inv_quietly; [| |exact Hs].
    + eapply quietly_trans; [|apply monitor_resume_quietly]. by apply quietly_same.
    + by destruct (monitor_resume_frame p o r (set_monitors l s)) as (-> & _).
  - destruct (take_listener sg (listeners s)) as [l|]; [|done].
    eapply stream_inv_quietly; [| |exact Hs].
    + eapply quietly_trans; [|apply signal_resume_quietly]. by apply quietly_same.
    + unfold signal_resume.
      destruct (killAll_frame deno (set_listeners l s)) as (Hb & _).
      destruct (killAll deno (set_listeners l s)) as [[[]|e] s1]; cbn in *; done.
Qed.

Lemma run_stream deno d sched s : stream_inv s → stream_inv (run deno d sched s).
Proof.
  revert s. induction sched as [|a sched IH]; intros s Hs; [done|].
  rewrite run_cons. apply IH. by apply fire_stream.
Qed.

Lemma boot_stream : stream_inv boot.
Proof. exists []. by split. Qed.

(** X11. [runner.build] is called at most once per [start] or [reload]
    event delivered: the chain is never rebuilt unless the consumer was
    told so first. *)
Theorem builds_follow_events (deno : Platform) (d : Daemon) (sched : list Action) :
  build_calls (st (run deno d sched boot))
  ≤ launches (trace (st (run deno d sched boot))).
Proof.
  destruct (run_stream deno d sched boot boot_stream) as (bs & Hbs & Hg).
  destruct (launches_shape bs) as [_ Hl].
  destruct (gen (run deno d sched boot)) as [| |[|] ? ? ?| | | |].
  - destruct Hg as [_ ->]. lia.
  - destruct Hg as [_ ->]. lia.
  - destruct Hg as [He ->]. destruct (launches_shape []) as [_ Hl0].
    rewrite (Hl0 _ (or_introl He)). cbn. lia.
  - destruct Hg as [He Hb]. rewrite (Hl _ (or_introl He)). lia.
  - destruct Hg as [He Hb]. rewrite (Hl _ (or_introl He)). lia.
  - destruct Hg as [He Hb]. rewrite (Hl _ (or_introl He)). lia.
  - destruct Hg as [He Hb]. rewrite (Hl _ (or_intror He)). lia.
  - destruct Hg as [He Hb]. rewrite (Hl _ He). lia.
Qed.

(** ** A setup command whose status cannot be retrieved *)

(** The loop suspended on command [c], the commands of [pre] before it
    having reported. *)
Lemma settle_upto (pre : list (Command * ProcessStatus)) :
  ∀ (before : list Command) (c : Command) (rest : list Command) (s : State),
    rest ≠ [] →
    let commands := before ++ pre.*1 ++ c :: rest in
    let r := settle (map (λ cs, Resolved cs.2) pre)
               (normal (start_iteration commands (length before) s)) in
    r.1 = Normal (Awaiting commands (length before + length pre) (exe c))
    ∧ trace r.2
      = trace s
        ++ flat_map (λ cs, sequential_effects cs.1
                           ++ [ESettled (exe cs.1) (Resolved cs.2)]) pre
        ++ sequential_effects c
    ∧ processes r.2 = processes s
    ∧ monitors r.2 = monitors s
    ∧ listeners r.2 = listeners s
    ∧ halted r.2 = halted s.
Proof.
  induction pre as [|[c0 x0] pre IH]; intros before c rest s Hrest; cbv zeta.
  - cbn [fmap list_fmap map settle flat_map app length].
    destruct (start_iteration_sequential (before ++ c :: rest) (length before) c s)
      as (Ho & Ht & Hp & Hm & _ & Hl & Hh).
    { by rewrite lookup_app_r, Nat.sub_diag by lia. }
    { rewrite length_app. cbn. destruct rest; [done|]. cbn. lia. }
    unfold normal. cbn [fst snd]. rewrite Ho, Nat.add_0_r. done.
  - cbn [fmap list_fmap map flat_map fst snd length].
    set (commands := before ++ (c0 :: pre.*1) ++ c :: rest).
    destruct (start_iteration_sequential commands (length before) c0 s)
      as (Ho & Ht & Hp & Hm & _ & Hl & Hh).
    { unfold commands. by rewrite lookup_app_r, Nat.sub_diag by lia. }
    { unfold commands. rewrite !length_app. cbn [length]. lia. }
    rewrite (settle_awaiting _ _ _ _ _ _ Ho). unfold start_resume.
    set (s1 := emit (ESettled (exe c0) (Resolved x0)) (start_iteration commands (length before) s).2).
    specialize (IH (before ++ [c0]) c rest s1 Hrest). cbv zeta in IH.
    replace ((before ++ [c0]) ++ pre.*1 ++ c :: rest) with commands in IH
      by (unfold commands; by rewrite <- app_assoc).
    replace (length (before ++ [c0])) with (S (length before)) in IH
      by (rewrite length_app; cbn; lia).
    destruct IH as (Ho' & Ht' & Hp' & Hm' & Hl' & Hh').
    split; [rewrite Ho'; do 2 f_equal; lia|].
    rewrite Ht', Hp', Hm', Hl', Hh'. subst s1. cbn.
    rewrite Ht, Hp, Hm, Hl, Hh. rewrite <- !app_assoc. done.
Qed.

Lemma spawned_app a b : spawned (a ++ b) = spawned a ++ spawned b.
Proof. apply omap_app. Qed.

Lemma spawned_sequential (pre : list (Command * ProcessStatus)) :
  spawned (flat_map (λ cs, sequential_effects cs.1
                           ++ [ESettled (exe cs.1) (Resolved cs.2)]) pre)
  = pre.*1.
Proof.
  induction pre as [|[c x] pre IH]; [done|].
  cbn [flat_map fmap list_fmap]. rewrite spawned_app, IH. done.
Qed.

(** X12. [start] does not catch a failing [process.status()] of a setup
    command.  If the setup commands before [c] report (whatever their
    status) and the status of [c], which is not the last command, cannot be
    retrieved, the first [next()] after [start] rejects with that error and
    the generator is finished for good, having delivered [start] only.
    The commands after [c] are never spawned, nothing is registered or
    monitored, and no signal task is installed. *)
Theorem failed_setup_status_aborts (deno : Platform) (d : Daemon)
    (pre : list (Command * ProcessStatus)) (c : Command) (rest : list Command)
    (e : DenoError) :
  runner_build (denon d) (script d) 0 = pre.*1 ++ c :: rest →
  rest ≠ [] →
  let s := run deno d
             ([ANext; ANext] ++ map AStatus (map (λ cs, Resolved cs.2) pre)
              ++ [AStatus (Rejected e)])
             boot in
  gen s = GDone
  ∧ last (trace (st s)) = Some (ERaise e)
  ∧ events (trace (st s)) = [EvStart]
  ∧ spawned (trace (st s)) = pre.*1 ++ [c]
  ∧ processes (st s) = ∅
  ∧ monitors (st s) = []
  ∧ listeners (st s) = []
  ∧ ∀ sched, gen (run deno d sched s) = GDone
             ∧ events (trace (st (run deno d sched s))) = [EvStart].
Proof.
  intros Hbuild Hrest. cbv zeta. rewrite !run_app.
  set (s1 := emit (EYield EvStart) initial).
  assert (run deno d [ANext; ANext] boot
          = lift (continue_start deno FromIterate (normal (start d s1)))) as ->
    by reflexivity.
  rewrite run_statuses.
  2:{ cbn [normal snd]. by destruct (start_frame d s1) as (_ & _ & ->). }
  unfold start. change (build_calls s1) with 0. rewrite Hbuild.
  set (s2 := emit (EBuild (script d)) (set_build_calls 1 s1)).
  destruct (settle_upto pre [] c rest s2 Hrest) as (Ho & Ht & Hp & Hm & Hl & Hh).
  cbn [app length] in Ho, Ht, Hp, Hm, Hl, Hh.
  destruct (settle _ _) as [o s3]. cbn [fst snd] in *. subst o.
  cbn [continue_start]. rewrite run_cons.
  change (lift (GAwaitStatus ?k ?cs ?i ?p, s3))
    with {| gen := GAwaitStatus k cs i p; st := s3 |}.
  rewrite fire_live by (by rewrite Hh). cbn [gen_status start_resume continue_start].
  cbn [run foldl lift fst snd gen st].
  assert (events (trace s3) = [EvStart]) as He.
  { assert (∀ l : list (Command * ProcessStatus),
              events (flat_map (λ cs, sequential_effects cs.1
                        ++ [ESettled (exe cs.1) (Resolved cs.2)]) l) = []) as E.
    { induction l as [|a l IH]; [done|]. cbn [flat_map]. by rewrite events_app, IH. }
    by rewrite Ht, !events_app, E. }
  split; [done|]. split; [cbn; by rewrite last_snoc|].
  split; [cbn [emit trace]; by rewrite !events_app, He|].
  split.
  { cbn [emit trace]. rewrite !spawned_app, Ht, !spawned_app, spawned_sequential.
    unfold s2, s1. cbn. by rewrite !app_nil_r. }
  split; [cbn; by rewrite Hp|]. split; [cbn; by rewrite Hm|].
  split; [cbn; by rewrite Hl|].
  intros sched.
  destruct (run_done deno d sched
              {| gen := GDone;
                 st := emit (ERaise e) (emit (ESettled (exe c) (Rejected e)) s3) |}
              eq_refl) as [Hg Hev].
  unfold lift. cbn [fst snd].
  split; [done|]. rewrite Hev. cbn [emit trace st]. by rewrite !events_app, He.
Qed.

(** The second setup command of a three-command chain fails to report. *)
Lemma failed_setup_status_aborts_witness :
  spawned (trace (st (run unix daemonE
                        [ANext; ANext; AStatus ok; AStatus (Rejected BadResource)]
                        boot)))
  = [ {| cmd := ["echo"; "one"]; exe := {| pid := 400; rid := 3 |}; options := watching |};
      {| cmd := ["echo"; "two"]; exe := {| pid := 401; rid := 4 |}; options := watching |} ].
Proof.
  destruct (failed_setup_status_aborts unix daemonE
              [({| cmd := ["echo"; "one"]; exe := {| pid := 400; rid := 3 |};
                   options := watching |}, {| success := true |})]
              {| cmd := ["echo"; "two"]; exe := {| pid := 401; rid := 4 |};
                 options := watching |}
              [ {| cmd := ["sleep"; "100"]; exe := {| pid := 402; rid := 5 |};
                   options := watching |} ]
              BadResource eq_refl) as (_ & _ & _ & H & _).
  - discriminate.
  - exact H.
Defined.

(** ** When processes are killed *)

Lemma terminated_start_iteration commands i s :
  terminated (trace (start_iteration commands i s).2) = terminated (trace s).
Proof.
  destruct (commands !! i) as [c|] eqn:E.
  - destruct (decide (i = length commands - 1)) as [Hi|Hi].
    + destruct (start_iteration_main commands i c s E Hi) as (_ & -> & _).
      by rewrite terminated_app, app_nil_r.
    + destruct (start_iteration_sequential commands i c s E Hi) as (_ & -> & _).
      by rewrite terminated_app, app_nil_r.
  - by rewrite start_iteration_beyond.
Qed.

Lemma terminated_onExit deno s :
  terminated (trace (onExit deno s)) = terminated (trace s).
Proof.
  unfold onExit. destruct (decide (build_os deno ≠ Windows)); [|done].
  cbn. rewrite <- !app_assoc, terminated_app. cbn. by rewrite app_nil_r.
Qed.

Lemma terminated_monitor_resume p o r s :
  terminated (trace (monitor_resume p o r s)) = terminated (trace s).
Proof.
  destruct (processes s !! pid p) as [q|] eqn:E.
  - destruct (monitor_resume_present p o r s q E) as (tail & -> & _ & _ & Hk).
    rewrite !terminated_app, Hk, terminated_monitor by done. by rewrite !app_nil_r.
  - destruct (monitor_resume_absent p o r s E) as (-> & _).
    rewrite terminated_app, terminated_monitor by done. by rewrite app_nil_r.
Qed.

Lemma terminated_continue deno k r :
  terminated (trace (continue_start deno k r).2) = terminated (trace r.2).
Proof.
  destruct r as [[[o|commands i p]|e] s]; cbn [continue_start fst snd].
  - unfold after_start, watcher_next, yield_exit.
    destruct k; [destruct (truthy (watch o))|]; cbn [fst snd emit trace];
      rewrite terminated_app, ?terminated_onExit; cbn; by rewrite app_nil_r.
  - done.
  - cbn. by rewrite terminated_app, app_nil_r.
Qed.

Lemma terminated_start d s : terminated (trace (start d s).2) = terminated (trace s).
Proof.
  unfold start. rewrite terminated_start_iteration. cbn.
  by rewrite terminated_app, app_nil_r.
Qed.

Lemma terminated_start_resume commands i p x s :
  terminated (trace (start_resume commands i p x s).2) = terminated (trace s).
Proof.
  unfold start_resume. destruct x as [x|e]; cbn [normal snd].
  - rewrite terminated_start_iteration. cbn. by rewrite terminated_app, app_nil_r.
  - cbn. by rewrite terminated_app, app_nil_r.
Qed.

Lemma reloaded_grows (t new : list Effect) : reloaded t → reloaded (t ++ new).
Proof. intros [b Hb]. exists b. rewrite events_app. set_solver. Qed.

(** Outside [reload] and the signal tasks no termination is requested. *)
Lemma fire_terminated deno d a s :
  no_signal a → gen s ≠ GYieldedReload →
  terminated (trace (st (fire deno d a s))) = terminated (trace (st s)).
Proof.
  intros Ha Hg. unfold fire. destruct (halted (st s)); [done|].
  destruct s as [g s]. cbn [gen st] in *.
  destruct a as [|r|b|p r|sg]; [| | | |done].
  - destruct g; cbn [gen_next lift fst snd st]; try done.
    + cbn. by rewrite terminated_app, app_nil_r.
    + rewrite terminated_continue. cbn [normal snd]. by rewrite terminated_start.
    + cbn. by rewrite terminated_app, app_nil_r.
    + cbn. by rewrite terminated_app, app_nil_r.
  - destruct g; cbn [gen_status lift fst snd st]; try done.
    by rewrite terminated_continue, terminated_start_resume.
  - destruct g; cbn [gen_feed lift fst snd st]; try done.
    destruct b as [watchE|]; [destruct (qualifies watchE)|]; cbn;
      rewrite <- ?app_assoc, terminated_app; cbn; by rewrite app_nil_r.
  - destruct (take_monitor p (monitors s)) as [[o l]|]; [|done].
    cbn [st]. by rewrite terminated_monitor_resume.
Qed.

Lemma fire_kill_inv deno d a s :
  no_signal a → kill_inv s → kill_inv (fire deno d a s).
Proof.
  intros Ha [Hy Hk].
  destruct (fire_events deno d a s) as (new & Hn & _ & _).
  split.
  - intros Hg'.
    assert (gen s = GYieldedReload ∨ gen s ≠ GYieldedReload) as [Hg|Hg]
      by (destruct (gen s); auto).
    + rewrite Hn. apply reloaded_grows. by apply Hy.
    + revert Hg'. unfold fire. destruct (halted (st s)); [done|].
      destruct s as [g s]. cbn [gen st] in *.
      destruct a as [|r|b|p r|sg]; [| | | |done].
      * destruct g; cbn [gen_next lift fst snd gen]; try done.
        destruct (continue_start_cases deno FromIterate (normal (start d s)))
          as (_ & [(? & ? & ? & -> & _)|[[-> _]|[(-> & _)|[-> _]]]]); done.
      * destruct g; cbn [gen_status lift fst snd gen]; try done.
        destruct (continue_start_cases deno k (start_resume commands i process r s))
          as (_ & [(? & ? & ? & -> & _)|[[-> _]|[(-> & _)|[-> _]]]]); done.
      * destruct g; cbn [gen_feed lift fst snd gen st]; try done.
        destruct b as [watchE|]; [destruct (qualifies watchE)|]; try done.
        intros _. exists watchE. unfold log. cbn [fst snd emit trace].
        rewrite !events_app. set_solver.
      * destruct (take_monitor p (monitors s)) as [[o l]|]; done.
  - intros Hno.
    assert (¬ reloaded (trace (st s))) as Hno'.
    { intros Hr. apply Hno. rewrite Hn. by apply reloaded_grows. }
    rewrite fire_terminated; [by apply Hk|done|].
    intros Hg. by apply Hno', Hy.
Qed.

(** X13. A daemon kills only on a reload or on a signal.  Along a run in
    which no signal arrives, as long as no [reload] event has been
    delivered no termination was requested of any process: not when the
    main process exits, not when a setup command fails, not when the change
    feed ends and [exit] is delivered (the main process is left running). *)
Theorem kills_only_after_reload_or_signal (deno : Platform) (d : Daemon)
    (sched : list Action) :
  Forall no_signal sched →
  ¬ reloaded (trace (st (run deno d sched boot))) →
  terminated (trace (st (run deno d sched boot))) = [].
Proof.
  intros Hs.
  assert (kill_inv (run deno d sched boot)) as [_ H]; [|exact H].
  assert (kill_inv boot) as Hb by (by split).
  revert Hb. generalize boot.
  induction Hs as [|a sched Ha Hs IH]; intros s Hb; [done|].
  rewrite run_cons. apply IH. by apply fire_kill_inv.
Qed.

(** Scenario A: the feed ends before any batch qualified. *)
Lemma kills_only_after_reload_or_signal_witness :
  terminated
    (trace (st (run unix daemonA
                  [ANext; ANext; AStatus ok; AFeed (Some access_batch); AFeed None; ANext]
                  boot))) = [].
Proof.
  apply (kills_only_after_reload_or_signal unix daemonA
           [ANext; ANext; AStatus ok; AFeed (Some access_batch); AFeed None; ANext]).
  - repeat constructor.
  - intros [b Hb]. vm_compute in Hb.
    repeat (apply elem_of_cons in Hb as [Hb|Hb]; [discriminate Hb|]).
    by apply elem_of_nil in Hb.
Defined.

Lemma spawned_monitor_resume p o r s :
  spawned (trace (monitor_resume p o r s)) = spawned (trace s).
Proof.
  unfold monitor_resume.
  destruct r as [x|e]; cbn; destruct (processes s !! pid p); cbn;
    rewrite ?log_exit_state; cbn; rewrite <- ?app_assoc, spawned_app;
    try destruct (success x), (truthy (watch o)); cbn; by rewrite app_nil_r.
Qed.

(** X14. The exit of a monitored process, however it ends, changes nothing
    for the consumer: the continuation of a monitor delivers no event, does
    not move the generator, spawns nothing, calls neither [runner.build]
    nor [Deno.exit], and requests no termination.  A main process that
    exits or crashes is restarted only by a later [reload], and the stream
    does not end because of it, whatever its options say. *)
Theorem process_exit_is_silent (deno : Platform) (d : Daemon)
    (p : Process) (r : Settled ProcessStatus) (s : Sys) :
  let s' := fire deno d (AMonitor p r) s in
  gen s' = gen s
  ∧ events (trace (st s')) = events (trace (st s))
  ∧ terminated (trace (st s')) = terminated (trace (st s))
  ∧ spawned (trace (st s')) = spawned (trace (st s))
  ∧ build_calls (st s') = build_calls (st s)
  ∧ halted (st s') = halted (st s)
  ∧ listeners (st s') = listeners (st s).
Proof.
  cbv zeta. unfold fire. destruct (halted (st s)) eqn:Hh; [by rewrite Hh|].
  destruct (take_monitor p (monitors (st s))) as [[o l]|]; [|by rewrite Hh].
  cbn [gen st].
  pose proof (monitor_resume_quietly p o r (set_monitors l (st s))) as Hq.
  apply quietly_events in Hq.
  destruct (monitor_resume_frame p o r (set_monitors l (st s))) as (Hb & _ & Hl & Hx).
  rewrite terminated_monitor_resume, spawned_monitor_resume, Hb, Hl, Hx.
  cbn in *. done.
Qed.

(** ** Signals before the daemon listens *)

Lemma fire_early_back deno d a s : early (gen (fire deno d a s)) → early (gen s).
Proof.
  unfold fire. destruct (halted (st s)); [done|].
  destruct s as [g s]. cbn [gen st].
  destruct a as [|r|b|p r|sg].
  - destruct g; cbn [gen_next lift fst snd gen]; try done.
    intros He.
    destruct (continue_start_unarmed deno FromReload (reload deno d s) (or_intror He))
      as [_ Hk].
    by specialize (Hk He).
  - destruct g; cbn [gen_status lift fst snd gen]; try done.
    intros He.
    destruct (continue_start_unarmed deno k (start_resume commands i process r s)
                (or_intror He)) as [_ Hk].
    by rewrite (Hk He).
  - destruct g; cbn [gen_feed lift fst snd gen]; try done.
    destruct b as [watchE|]; [destruct (qualifies watchE)|]; done.
  - destruct (take_monitor p (monitors s)) as [[o l]|]; done.
  - destruct (take_listener sg (listeners s)) as [l|]; done.
Qed.

Lemma run_early_unkilled deno d sched s :
  unarmed deno s → (early (gen s) → terminated (trace (st s)) = []) →
  early (gen (run deno d sched s)) → terminated (trace (st (run deno d sched s))) = [].
Proof.
  revert s. induction sched as [|a sched IH]; intros s Hu Hs; [done|].
  rewrite run_cons. apply IH; [by apply fire_unarmed|].
  intros He. pose proof (fire_early_back deno d a s He) as He0.
  destruct (Hu (or_intror He0)) as [Hl _].
  destruct a as [| | | |sg].
  - rewrite fire_terminated; [by apply Hs|done|]. intros Hg. by rewrite Hg in He0.
  - rewrite fire_terminated; [by apply Hs|done|]. intros Hg. by rewrite Hg in He0.
  - rewrite fire_terminated; [by apply Hs|done|]. intros Hg. by rewrite Hg in He0.
  - rewrite fire_terminated; [by apply Hs|done|]. intros Hg. by rewrite Hg in He0.
  - rewrite fire_signal_unheard by done. by apply Hs.
Qed.

(** X7. [onExit] is called only after the first [start()] has returned.
    Until then (while the generator is not started, or is suspended on a
    setup command of the first chain execution) the daemon has no signal
    task, whatever happened before: no code of the daemon waits for a
    signal, it has requested the termination of no process and it has not
    called [Deno.exit]. *)
Theorem signals_unheard_until_start_returns (deno : Platform) (d : Daemon)
    (sched : list Action) :
  early (gen (run deno d sched boot)) →
  listeners (st (run deno d sched boot)) = []
  ∧ halted (st (run deno d sched boot)) = false
  ∧ terminated (trace (st (run deno d sched boot))) = [].
Proof.
  intros He.
  destruct (run_unarmed deno d sched boot (boot_unarmed deno)) as [Hl Hh]; [by right|].
  split; [done|]. split; [done|].
  by apply (run_early_unkilled deno d sched boot (boot_unarmed deno)).
Qed.

(** Scenario A while its setup command runs. *)
Lemma signals_unheard_until_start_returns_witness :
  listeners (st (run unix daemonA [ANext; ANext] boot)) = []
  ∧ terminated (trace (st (run unix daemonA [ANext; ANext] boot))) = [].
Proof.
  destruct (signals_unheard_until_start_returns unix daemonA [ANext; ANext] I)
    as (H1 & _ & H3).
  split; [exact H1|exact H3].
Defined.

(** X8. On Windows [onExit] installs nothing: along every run of a daemon
    no signal task is ever suspended and the daemon never calls
    [Deno.exit]. *)
Theorem windows_never_listens (deno : Platform) (d : Daemon)
    (sched : list Action) :
  build_os deno = Windows →
  listeners (st (run deno d sched boot)) = []
  ∧ halted (st (run deno d sched boot)) = false.
Proof.
  intros Hw.
  by destruct (run_unarmed deno d sched boot (boot_unarmed deno)) as [Hl Hh]; [left|].
Qed.

(** Scenario A on Windows, through a reload. *)
Lemma windows_never_listens_witness :
  listeners
    (st (run windows daemonA
           [ANext; ANext; AStatus ok; AFeed (Some modify_batch); ANext; AStatus ok] boot))
  = [].
Proof.
  destruct (windows_never_listens windows daemonA
              [ANext; ANext; AStatus ok; AFeed (Some modify_batch); ANext; AStatus ok]
              eq_refl) as (H & _).
  exact H.
Defined.

(** ** The events and the batches consumed *)

Lemma stream_at_quietly bs g s s' :
  quietly s s' →
  stream_at bs {| gen := g; st := s |} → stream_at bs {| gen := g; st := s' |}.
Proof.
  intros Hq. unfold stream_at. cbn [gen st]. by rewrite (quietly_events _ _ Hq).
Qed.

Lemma continue_stream_at deno k r (bs : list (list FileEvent)) :
  events (trace r.2) = EvStart :: map EvReload bs →
  (k = FromIterate → bs = []) →
  stream_at bs (lift (continue_start deno k r)).
Proof.
  intros He Hk.
  destruct (continue_start_cases deno k r)
    as (_ & [(commands & i & p & Hg & Hev)|[[Hg Hev]|[(Hg & Hki & Hev)|[Hg Hev]]]]);
    unfold stream_at, lift; cbn [gen st]; rewrite Hg, Hev, He.
  - destruct k; [|done]. by rewrite (Hk eq_refl).
  - done.
  - done.
  - by left.
Qed.

Lemma fire_stream_at deno d a s bs :
  stream_at bs s →
  stream_at (bs ++ filter (λ b, qualifies b = true) (consumes a s)) (fire deno d a s).
Proof.
  intros Hs.
  assert (∀ s', stream_at bs s' → consumes a s = [] →
            stream_at (bs ++ filter (λ b, qualifies b = true) (consumes a s)) s') as Hsame.
  { intros s' Hs' ->. change (filter _ []) with (@nil (list FileEvent)).
    by rewrite app_nil_r. }
  unfold fire. destruct (halted (st s)) eqn:Hh.
  { apply Hsame; [done|]. unfold consumes. rewrite Hh.
    by destruct a as [|?|[?|]|? ?|?], (gen s). }
  destruct s as [g s]. unfold stream_at in Hs. cbn [gen st] in *.
  destruct a as [|r|b|p r|sg].
  - apply Hsame; [|done].
    destruct g; cbn [gen_next]; try done.
    + destruct Hs as [He ->]. unfold stream_at. cbn. by rewrite events_app, He.
    + destruct Hs as [He ->].
      apply (continue_stream_at deno FromIterate (normal (start d s)) []); [|done].
      cbn [normal snd]. by rewrite (quietly_events _ _ (start_quietly d s)).
    + apply (continue_stream_at deno FromReload (reload deno d s) bs); [|done].
      by rewrite (quietly_events _ _ (reload_quietly deno d s)).
    + unfold stream_at. cbn. rewrite events_app, app_nil_r. by right.
    + unfold stream_at. cbn. by rewrite events_app, app_nil_r.
  - apply Hsame; [|done].
    destruct g; cbn [gen_status]; try done.
    pose proof (quietly_events _ _ (start_resume_quietly commands i process r s)) as Hq.
    destruct k.
    + destruct Hs as [He ->].
      apply (continue_stream_at deno FromIterate _ []); [by rewrite Hq|done].
    + apply (continue_stream_at deno FromReload _ bs); [by rewrite Hq|done].
  - destruct g; cbn [gen_feed];
      try (apply Hsame; [done|]; unfold consumes; cbn; by destruct b).
    unfold consumes. cbn [gen st]. rewrite Hh.
    destruct b as [watchE|].
    + destruct (qualifies watchE) eqn:Eq.
      * rewrite filter_cons_True by done. rewrite filter_nil.
        unfold stream_at. cbn. rewrite <- app_assoc, events_app, Hs, map_app. done.
      * rewrite filter_cons_False by (by rewrite Eq). rewrite filter_nil, app_nil_r.
        unfold stream_at. cbn. by rewrite events_app, app_nil_r.
    + rewrite filter_nil, app_nil_r. unfold stream_at. cbn. by rewrite events_app, Hs.
  - apply Hsame; [|done].
    destruct (take_monitor p (monitors s)) as [[o l]|]; [|done].
    eapply stream_at_quietly; [|exact Hs].
    eapply quietly_trans; [|apply monitor_resume_quietly]. by apply quietly_same.
  - apply Hsame; [|done].
    destruct (take_listener sg (listeners s)) as [l|]; [|done].
    eapply stream_at_quietly; [|exact Hs].
    eapply quietly_trans; [|apply signal_resume_quietly]. by apply quietly_same.
Qed.

Lemma run_stream_at deno d sched s bs :
  stream_at bs s →
  stream_at (bs ++ filter (λ b, qualifies b = true) (consumed deno d sched s))
            (run deno d sched s).
Proof.
  revert s bs. induction sched as [|a sched IH]; intros s bs Hs.
  - cbn [consumed run foldl]. change (filter _ []) with (@nil (list FileEvent)).
    by rewrite app_nil_r.
  - rewrite run_cons. cbn [consumed]. rewrite filter_app, app_assoc.
    apply IH. by apply fire_stream_at.
Qed.

(** X10. Whatever the outside world does, what one iteration of a daemon
    delivers is determined by the batches its [for await] loop has
    consumed: nothing yet, or one [start] followed by exactly one [reload]
    for each consumed batch that has a record whose type includes "modify",
    carrying that batch, in the order of consumption, possibly followed by
    one [exit] as the last event.  A consumed batch without such a record
    never appears, and no batch appears twice or out of order. *)
Theorem event_stream_shape (deno : Platform) (d : Daemon) (sched : list Action) :
  let bs := filter (λ b, qualifies b = true) (consumed deno d sched boot) in
  (events (trace (st (run deno d sched boot))) = []
   ∨ events (trace (st (run deno d sched boot))) = EvStart :: map EvReload bs
   ∨ events (trace (st (run deno d sched boot))) = EvStart :: map EvReload bs ++ [EvExit])
  ∧ Forall (λ b, ∃ e, e ∈ b ∧ "modify" ∈ type e) bs
  ∧ (gen (run deno d sched boot) = GInit
     ↔ events (trace (st (run deno d sched boot))) = [])
  ∧ (gen (run deno d sched boot) = GYieldedExit →
     events (trace (st (run deno d sched boot))) = EvStart :: map EvReload bs ++ [EvExit]).
Proof.
  cbv zeta.
  pose proof (run_stream_at deno d sched boot [] (conj eq_refl eq_refl)) as Hs.
  cbn [app] in Hs. unfold stream_at in Hs.
  split; [|split; [|split]].
  - destruct (gen (run deno d sched boot)) as [| |[|] ? ? ?| | | |].
    + destruct Hs as [-> _]. auto.
    + destruct Hs as [-> ->]. auto.
    + destruct Hs as [-> ->]. auto.
    + rewrite Hs. auto.
    + rewrite Hs. auto.
    + rewrite Hs. auto.
    + rewrite Hs. auto.
    + destruct Hs as [-> | ->]; auto.
  - apply Forall_forall. intros b Hb. apply list_elem_of_filter in Hb as [Hb _].
    unfold qualifies in Hb. apply existsb_exists in Hb as (e & Hin & He).
    exists e. split; [by apply list_elem_of_In|].
    unfold includes in He. by apply bool_decide_eq_true in He.
  - destruct (gen (run deno d sched boot)) as [| |[|] ? ? ?| | | |];
      [by destruct Hs as [-> _]|..];
      (split; [done|]); intros He; rewrite He in Hs;
      first [discriminate Hs
            |destruct Hs as [H1 H2]; discriminate H1
            |destruct Hs as [H1|H1]; discriminate H1].
  - intros Hg. by rewrite Hg in Hs.
Qed.

(** ** Iterating a daemon again *)

Lemma spawned_onExit deno s : spawned (trace (onExit deno s)) = spawned (trace s).
Proof.
  unfold onExit. destruct (decide (build_os deno ≠ Windows)); [|done].
  cbn. rewrite <- !app_assoc, spawned_app. cbn. by rewrite app_nil_r.
Qed.

Lemma spawned_continue deno k r :
  spawned (trace (continue_start deno k r).2) = spawned (trace r.2).
Proof.
  destruct r as [[[o|commands i p]|e] s]; cbn [continue_start fst snd].
  - unfold after_start, watcher_next, yield_exit.
    destruct k; [destruct (truthy (watch o))|]; cbn [fst snd emit trace];
      rewrite spawned_app, ?spawned_onExit; cbn; by rewrite app_nil_r.
  - done.
  - cbn. by rewrite spawned_app, app_nil_r.
Qed.

(** The first block of [start]: the chain is built, and its first command,
    if there is one, is spawned; a chain of one command is registered and
    monitored at once. *)
Lemma start_first_block d s :
  let commands := runner_build (denon d) (script d) (build_calls s) in
  spawned (trace (start d s).2) = spawned (trace s) ++ take 1 commands
  ∧ (∃ tail, trace (start d s).2 = trace s ++ EBuild (script d) :: tail)
  ∧ match commands with
    | [] => (start d s).1 = Returned empty_options
            ∧ processes (start d s).2 = processes s
            ∧ monitors (start d s).2 = monitors s
    | [c] => (start d s).1 = Returned (options c)
             ∧ processes (start d s).2 = <[pid (exe c) := exe c]> (processes s)
             ∧ monitors (start d s).2 = monitors s ++ [(exe c, options c)]
    | c :: _ :: _ => (start d s).1 = Awaiting commands 0 (exe c)
                     ∧ processes (start d s).2 = processes s
                     ∧ monitors (start d s).2 = monitors s
    end.
Proof.
  cbv zeta. unfold start.
  set (s0 := emit (EBuild (script d)) (set_build_calls (S (build_calls s)) s)).
  assert (trace s0 = trace s ++ [EBuild (script d)]) as Hs0 by done.
  destruct (runner_build (denon d) (script d) (build_calls s)) as [|c [|c' rest]].
  - rewrite start_iteration_beyond by done. cbn [fst snd].
    rewrite Hs0, spawned_app.
    split; [done|]. split; [by exists []|done].
  - destruct (start_iteration_main [c] 0 c s0 eq_refl eq_refl)
      as (Ho & Ht & Hp & Hm & _).
    rewrite Ht, Hs0, !spawned_app, <- app_assoc. split; [done|].
    split; [exists (main_effects c); by rewrite <- app_assoc|done].
  - destruct (start_iteration_sequential (c :: c' :: rest) 0 c s0 eq_refl)
      as (Ho & Ht & Hp & Hm & _); [done|].
    rewrite Ht, Hs0, !spawned_app, <- app_assoc. split; [done|].
    split; [exists (sequential_effects c); by rewrite <- app_assoc|done].
Qed.

(** C9, amended. Single use is a property of the generator, not of the
    daemon.  A generator delivers at most one [start] event, whatever the
    outside world does, and once it has finished it stays finished and
    delivers nothing more.  But every call of [[Symbol.asyncIterator]()]
    returns a new generator on the same daemon, and its first [next()]
    delivers [start] whatever state earlier iterations left behind.  Its
    second [next()] executes the chain again on that state: it calls
    [runner.build] once more, spawns the first command of the chain it
    gets, and stores the main process of a one-command chain in the very
    registry that earlier iterations used. *)
Theorem generator_is_single_use (deno : Platform) (d : Daemon) :
  (∀ s, gen_next deno d asyncIterator s = (GYieldedStart, emit (EYield EvStart) s))
  ∧ (∀ sched s,
       starts (trace (st (run deno d sched {| gen := asyncIterator; st := s |})))
       ≤ S (starts (trace s)))
  ∧ (∀ sched s,
       gen s = GDone →
       gen (run deno d sched s) = GDone
       ∧ events (trace (st (run deno d sched s))) = events (trace (st s)))
  ∧ ∀ s,
      let commands := runner_build (denon d) (script d) (build_calls s) in
      let r := gen_next deno d GYieldedStart s in
      build_calls r.2 = S (build_calls s)
      ∧ (∃ tail, trace r.2 = trace s ++ EBuild (script d) :: tail)
      ∧ spawned (trace r.2) = spawned (trace s) ++ take 1 commands
      ∧ match commands with
        | [c] => processes r.2 = <[pid (exe c) := exe c]> (processes s)
                 ∧ monitors r.2 = monitors s ++ [(exe c, options c)]
        | c :: _ :: _ => r.1 = GAwaitStatus FromIterate commands 0 (exe c)
                         ∧ processes r.2 = processes s
        | [] => processes r.2 = processes s
        end.
Proof.
  split; [done|]. split; [|split].
  - intros sched s.
    by destruct (run_starts deno d sched {| gen := asyncIterator; st := s |}) as [_ H].
  - intros sched s. apply run_done.
  - intros s. cbv zeta. cbn [gen_next].
    destruct (continue_start_registry deno FromIterate (normal (start d s)))
      as (Hp & Hm & Hb).
    destruct (continue_start_trace deno FromIterate (normal (start d s)))
      as (new & Hn & _).
    rewrite Hb, Hp, Hm, spawned_continue, Hn. cbn [normal snd].
    destruct (start_first_block d s) as (Hsp & (tail & Ht) & Hc).
    destruct (start_frame d s) as (-> & _).
    split; [done|]. split.
    { exists (tail ++ new). rewrite Ht, <- app_assoc. done. }
    split; [done|].
    destruct (runner_build (denon d) (script d) (build_calls s)) as [|c [|c' rest]].
    + by destruct Hc as (_ & -> & _).
    + by destruct Hc as (_ & -> & ->).
    + destruct Hc as (Ho & -> & _). split; [|done].
      unfold normal. by rewrite Ho.
Qed.

(** ** The race between a natural exit and killAll *)

Lemma verdicts_monitor_resume p o r s :
  verdicts (pid p) (trace (monitor_resume p o r s))
  = verdicts (pid p) (trace s)
    ++ [match processes s !! pid p with
        | Some _ => ExitedOnItsOwn
        | None => KilledExternally
        end].
Proof.
  destruct (processes s !! pid p) as [q|] eqn:E.
  - destruct (monitor_resume_present p o r s q E) as (tail & -> & _ & Hv & _).
    by rewrite !verdicts_app, verdicts_monitor_present, Hv, app_nil_r.
  - destruct (monitor_resume_absent p o r s E) as (-> & _).
    by rewrite verdicts_app, verdicts_monitor_absent.
Qed.

Lemma killAll_requests deno q s :
  verdicts q (trace (killAll deno s).2) = verdicts q (trace s)
  ∧ ∃ served rest,
      for_in (processes s) = served ++ rest
      ∧ terminated (trace (killAll deno s).2)
        = terminated (trace s) ++ map (λ kp, pid kp.2) served.
Proof.
  destruct (killAll_trace deno s) as (served & rest & Hl & ->). split.
  - by rewrite verdicts_app, verdicts_killAll_new, app_nil_r.
  - exists served, rest. split; [done|].
    change (?x :: ?l) with ([x] ++ l).
    by rewrite !terminated_app, terminated_served.
Qed.

Lemma verdicts_start_iteration q commands i s :
  verdicts q (trace (start_iteration commands i s).2) = verdicts q (trace s).
Proof.
  destruct (commands !! i) as [c|] eqn:E.
  - destruct (decide (i = length commands - 1)) as [Hi|Hi].
    + destruct (start_iteration_main commands i c s E Hi) as (_ & -> & _).
      rewrite verdicts_app. unfold main_effects, verdicts at 2, verdict. cbn.
      rewrite !decide_False by done. by rewrite app_nil_r.
    + destruct (start_iteration_sequential commands i c s E Hi) as (_ & -> & _).
      rewrite verdicts_app. unfold sequential_effects, verdicts at 2, verdict. cbn.
      rewrite !decide_False by done. by rewrite app_nil_r.
  - by rewrite start_iteration_beyond.
Qed.

Lemma verdicts_announced q cfg s :
  verdicts q (trace (announced cfg s)) = verdicts q (trace s).
Proof.
  unfold announced. cbn [trace]. rewrite verdicts_app. unfold reload_banner.
  destruct (logger cfg) as [[[|]]|], (match_ (watcher cfg)), (exts (watcher cfg));
    unfold verdicts at 2, verdict; cbn; rewrite !decide_False by done;
    by rewrite app_nil_r.
Qed.

Lemma terminated_announced cfg s :
  terminated (trace (announced cfg s)) = terminated (trace s).
Proof.
  unfold announced. cbn [trace]. rewrite terminated_app. unfold reload_banner.
  by destruct (logger cfg) as [[[|]]|], (match_ (watcher cfg)), (exts (watcher cfg));
    rewrite app_nil_r.
Qed.

Lemma verdicts_emit q e s :
  verdict q e = None → verdicts q (trace (emit e s)) = verdicts q (trace s).
Proof.
  intros He. cbn [emit trace]. rewrite verdicts_app. unfold verdicts at 2.
  cbn. by rewrite He, app_nil_r.
Qed.

Lemma verdicts_start q d s : verdicts q (trace (start d s).2) = verdicts q (trace s).
Proof.
  unfold start. rewrite verdicts_start_iteration. by rewrite verdicts_emit.
Qed.

(** What [reload] asks to terminate, and that it pronounces no verdict. *)
Lemma reload_requests deno d q s :
  verdicts q (trace (reload deno d s).2) = verdicts q (trace s)
  ∧ ∃ served rest,
      for_in (processes s) = served ++ rest
      ∧ terminated (trace (reload deno d s).2)
        = terminated (trace s) ++ map (λ kp, pid kp.2) served.
Proof.
  rewrite reload_unfold.
  destruct (killAll_requests deno q (announced (config (denon d)) s))
    as (Hv & served & rest & Hl & Ht).
  rewrite verdicts_announced in Hv. rewrite terminated_announced in Ht.
  destruct (killAll deno (announced (config (denon d)) s)) as [[[]|e] sk];
    cbn [fst snd normal] in *.
  - rewrite verdicts_start, terminated_start. split; [done|]. by exists served, rest.
  - split; [done|]. by exists served, rest.
Qed.

Lemma verdicts_continue_reload deno q r :
  verdicts q (trace (continue_start deno FromReload r).2) = verdicts q (trace r.2).
Proof.
  destruct r as [[[o|commands i p]|e] s];
    cbn [continue_start after_start watcher_next fst snd]; [|done|];
    by rewrite verdicts_emit.
Qed.

Lemma signal_resume_requests deno q s :
  verdicts q (trace (signal_resume deno s)) = verdicts q (trace s)
  ∧ ∃ served rest,
      for_in (processes s) = served ++ rest
      ∧ terminated (trace (signal_resume deno s))
        = terminated (trace s) ++ map (λ kp, pid kp.2) served.
Proof.
  unfold signal_resume.
  destruct (killAll_requests deno q s) as (Hv & served & rest & Hl & Ht).
  destruct (killAll deno s) as [[[]|e] sk]; cbn [fst snd] in *.
  - split.
    + change (trace (set_halted true ?x)) with (trace x).
      by rewrite verdicts_emit.
    + exists served, rest. split; [done|]. cbn.
      by rewrite terminated_app, Ht, app_nil_r.
  - split.
    + by rewrite verdicts_emit.
    + exists served, rest. split; [done|]. cbn.
      by rewrite terminated_app, Ht, app_nil_r.
Qed.

Lemma take_monitor_app p l o l' extra :
  take_monitor p l = Some (o, l') →
  take_monitor p (l ++ extra) = Some (o, l' ++ extra).
Proof.
  revert o l'. induction l as [|[q0 o0] l IH]; intros o l' Ht; [done|].
  cbn in *. destruct (decide (q0 = p)); [by injection Ht as <- <-|].
  destruct (take_monitor p l) as [[o1 l1]|]; [|done]. injection Ht as <- <-.
  by rewrite (IH o1 l1 eq_refl).
Qed.

Lemma reload_monitors deno d s :
  ∃ extra, monitors (reload deno d s).2 = monitors s ++ extra.
Proof.
  rewrite reload_unfold. set (sb := announced (config (denon d)) s).
  destruct (killAll_frame deno sb) as (_ & Hm & _).
  change (monitors sb) with (monitors s) in Hm.
  destruct (killAll deno sb) as [[[]|e] sk]; cbn [fst snd normal] in *;
    rewrite <- Hm.
  - destruct (start_first_block d sk) as (_ & _ & Hc).
    destruct (runner_build (denon d) (script d) (build_calls sk)) as [|c [|c' rest]].
    + exists []. destruct Hc as (_ & _ & ->). by rewrite app_nil_r.
    + eexists. by destruct Hc as (_ & _ & ->).
    + exists []. destruct Hc as (_ & _ & ->). by rewrite app_nil_r.
  - exists []. by rewrite app_nil_r.
Qed.

(** What [reload] leaves in the registry: nothing, or the main process of a
    rebuilt chain of one command. *)
Lemma reload_registry deno d s k q :
  processes (reload deno d s).2 !! k = Some q →
  ∃ c, runner_build (denon d) (script d) (build_calls s) = [c]
       ∧ q = exe c ∧ k = pid (exe c).
Proof.
  rewrite reload_unfold. set (sb := announced (config (denon d)) s).
  destruct (killAll_frame deno sb) as (Hb & _).
  pose proof (killAll_processes deno sb) as Hp.
  destruct (killAll deno sb) as [[[]|e] sk]; cbn [fst snd normal] in *.
  - destruct (start_first_block d sk) as (_ & _ & Hc). rewrite Hb in Hc.
    change (build_calls sb) with (build_calls s) in Hc.
    destruct (runner_build (denon d) (script d) (build_calls s)) as [|c [|c' rest]].
    + destruct Hc as (_ & -> & _). by rewrite Hp, lookup_empty.
    + destruct Hc as (_ & -> & _). rewrite Hp. intros Hkq.
      apply lookup_insert_Some in Hkq as [[<- <-]|[_ Hkq]]; [by exists c|].
      by rewrite lookup_empty in Hkq.
    + destruct Hc as (_ & -> & _). by rewrite Hp, lookup_empty.
  - by rewrite Hp, lookup_empty.
Qed.

Lemma served_excludes (m : gmap N Process) k served rest :
  keyed_by_pid m → for_in (delete k m) = served ++ rest →
  k ∉ map (λ kp : N * Process, pid kp.2) served.
Proof.
  intros Hk Hl Hin.
  apply list_elem_of_fmap in Hin as ([k' q] & Hpid & Hin). cbn in Hpid.
  assert ((k', q) ∈ for_in (delete k m)) as Hin' by (rewrite Hl; set_solver).
  apply for_in_lookup in Hin'. apply lookup_delete_Some in Hin' as [Hne Hq].
  apply Hk in Hq. congruence.
Qed.

(** C2 fails on the code: a signal arrives while the tracked main process
    101 has exited but its monitor has not yet resumed.  The signal task
    runs [killAll] and [Deno.exit(0)] in one block; the monitor never
    resumes and pronounces neither verdict. *)
Lemma signal_race_gives_no_verdict :
  let p := {| pid := 101; rid := 4 |} in
  let s := run unix daemonA [ANext; ANext; AStatus ok] boot in
  let s' := run unix daemonA [ASignal SIGINT; AMonitor p ok] s in
  processes (st s) !! 101%N = Some p
  ∧ monitors (st s) = [(p, watching)]
  ∧ verdicts 101 (trace (st s')) = []
  ∧ terminated (trace (st s')) = [101%N]
  ∧ halted (st s') = true
  ∧ monitors (st s') = [(p, watching)].
Proof. cbv zeta. by vm_compute. Qed.

(** C2, amended. A tracked process has exited and its monitor is about to
    resume, while [killAll] is about to run, in a reload or in a signal
    task.  The monitor never pronounces both verdicts.  If the monitor
    resumes first it reports an exit on its own and removes the entry, and
    the [killAll] that follows requests no termination of that pid.  If
    [killAll] runs first in a signal task and no request throws,
    [Deno.exit(0)] follows in the same block and the monitor never resumes:
    no verdict is pronounced.  In every other case ([killAll] first in a
    reload, or in a signal task in which a request throws) the monitor
    resumes and pronounces exactly one verdict, by the registry as it finds
    it: a kill, mutating nothing, when the pid is absent; an exit on its
    own, removing the entry, when the pid is present, which happens only
    when the reload has in the same block registered the main process of a
    one-command chain under that very pid. *)
Theorem race_gives_at_most_one_verdict (deno : Platform) (d : Daemon)
    (p : Process) (o : ScriptOptions) (l : list (Process * ScriptOptions))
    (r : Settled ProcessStatus) (t : Trigger) (s : Sys) :
  halted (st s) = false → triggers t s →
  take_monitor p (monitors (st s)) = Some (o, l) →
  processes (st s) !! pid p = Some p →
  keyed_by_pid (processes (st s)) →
  let before := verdicts (pid p) (trace (st s)) in
  (let s' := run deno d [AMonitor p r; trigger_action t] s in
   verdicts (pid p) (trace (st s')) = before ++ [ExitedOnItsOwn]
   ∧ processes (st (fire deno d (AMonitor p r) s)) = delete (pid p) (processes (st s))
   ∧ ∃ ks, terminated (trace (st s')) = terminated (trace (st s)) ++ ks
           ∧ pid p ∉ ks)
  ∧ (let s1 := fire deno d (trigger_action t) s in
     let s' := fire deno d (AMonitor p r) s1 in
     (halted (st s1) = true
      ↔ (∃ sg, t = BySignal sg)
        ∧ ∀ k q, processes (st s) !! k = Some q → answer deno q = Normal ())
     ∧ (halted (st s1) = true →
        s' = s1 ∧ verdicts (pid p) (trace (st s')) = before)
     ∧ (halted (st s1) = false →
        match processes (st s1) !! pid p with
        | None =>
            verdicts (pid p) (trace (st s')) = before ++ [KilledExternally]
            ∧ processes (st s') = processes (st s1)
        | Some q =>
            verdicts (pid p) (trace (st s')) = before ++ [ExitedOnItsOwn]
            ∧ processes (st s') = delete (pid p) (processes (st s1))
            ∧ t = ByReload
            ∧ ∃ c, runner_build (denon d) (script d) (build_calls (st s)) = [c]
                   ∧ q = exe c
        end)).
Proof.
  intros Hh Htr Htake Htracked Hkeyed. cbv zeta.
  destruct s as [g s]. cbn [gen st] in *. split.
  - (* the monitor resumes first *)
    rewrite run_cons, fire_live by done. rewrite Htake.
    set (sm := monitor_resume p o r (set_monitors l s)).
    pose proof (verdicts_monitor_resume p o r (set_monitors l s)) as Hv.
    pose proof (monitor_resume_processes p o r (set_monitors l s)) as Hp.
    pose proof (terminated_monitor_resume p o r (set_monitors l s)) as Ht.
    destruct (monitor_resume_frame p o r (set_monitors l s)) as (_ & _ & Hl & Hhm).
    cbn [set_monitors processes trace listeners halted] in Hv, Hp, Ht, Hl, Hhm.
    rewrite Htracked in Hv, Hp. fold sm in Hv, Hp, Ht, Hl, Hhm.
    cbn [st]. split; [|split; [exact Hp|]].
    + destruct t as [|sg]; cbn [trigger_action triggers gen st] in *.
      * subst g. rewrite run_cons, fire_live by (by rewrite Hhm). cbn [gen_next run foldl lift st snd].
        rewrite verdicts_continue_reload.
        by destruct (reload_requests deno d (pid p) sm) as (-> & _).
      * rewrite <- Hl in Htr. destruct (take_listener_elem sg _ Htr) as [l' Hl'].
        rewrite run_cons, fire_live by (by rewrite Hhm). rewrite Hl'. cbn [run foldl st].
        by destruct (signal_resume_requests deno (pid p) (set_listeners l' sm)) as (-> & _).
    + destruct t as [|sg]; cbn [trigger_action triggers gen st] in *.
      * subst g. rewrite run_cons, fire_live by (by rewrite Hhm). cbn [gen_next run foldl lift st snd].
        rewrite terminated_continue.
        destruct (reload_requests deno d (pid p) sm) as (_ & served & rest & Hs & ->).
        rewrite Ht. eexists. split; [done|].
        rewrite Hp in Hs. by apply (served_excludes _ _ _ _ Hkeyed Hs).
      * rewrite <- Hl in Htr. destruct (take_listener_elem sg _ Htr) as [l' Hl'].
        rewrite run_cons, fire_live by (by rewrite Hhm). rewrite Hl'. cbn [run foldl st].
        destruct (signal_resume_requests deno (pid p) (set_listeners l' sm))
          as (_ & served & rest & Hs & ->).
        cbn [set_listeners trace processes] in *. rewrite Ht. eexists. split; [done|].
        rewrite Hp in Hs. by apply (served_excludes _ _ _ _ Hkeyed Hs).
  - (* killAll runs first *)
    destruct t as [|sg]; cbn [trigger_action triggers gen st] in *.
    + subst g. rewrite fire_live by done. cbn [gen_next].
      set (c := continue_start deno FromReload (reload deno d s)).
      assert (halted c.2 = false) as Hhc.
      { unfold c. rewrite continue_start_halted.
        by destruct (reload_frame deno d s) as (_ & _ & ->). }
      destruct (continue_start_registry deno FromReload (reload deno d s))
        as (Hpc & Hmc & _). fold c in Hpc, Hmc.
      assert (verdicts (pid p) (trace c.2) = verdicts (pid p) (trace s)) as Hvc.
      { unfold c. rewrite verdicts_continue_reload.
        by destruct (reload_requests deno d (pid p) s) as (-> & _). }
      destruct (reload_monitors deno d s) as (extra & Hextra).
      cbn [lift st]. split; [|split].
      * rewrite Hhc. split; [done|]. by intros [[sg Hsg] _].
      * rewrite Hhc. done.
      * intros _. unfold lift. rewrite fire_live by done.
        rewrite Hmc, Hextra, (take_monitor_app _ _ _ _ extra Htake). cbn [st].
        pose proof (verdicts_monitor_resume p o r (set_monitors (l ++ extra) c.2)) as Hv.
        pose proof (monitor_resume_processes p o r (set_monitors (l ++ extra) c.2)) as Hp.
        cbn [set_monitors processes trace] in Hv, Hp. rewrite Hvc in Hv.
        destruct (processes c.2 !! pid p) as [q|] eqn:E.
        -- split; [done|]. split; [done|]. split; [done|].
           rewrite Hpc in E. destruct (reload_registry deno d s _ _ E) as (c0 & Hc0 & -> & _).
           by exists c0.
        -- by split.
    + destruct (take_listener_elem sg _ Htr) as [l' Hl'].
      rewrite fire_live by done. rewrite Hl'. cbn [st].
      pose proof (killAll_normal deno (set_listeners l' s)) as Hn.
      destruct (killAll_frame deno (set_listeners l' s)) as (_ & Hm & _ & Hhk).
      pose proof (killAll_processes deno (set_listeners l' s)) as Hpk.
      destruct (signal_resume_requests deno (pid p) (set_listeners l' s)) as (Hv & _).
      cbn [set_listeners processes trace monitors halted] in Hn, Hm, Hhk, Hv.
      revert Hv. unfold signal_resume.
      destruct (killAll deno (set_listeners l' s)) as [[[]|e] sk];
        cbn [fst snd] in *; intros Hv.
      * split; [|split].
        -- split; [|done]. intros _. split; [by exists sg|]. by apply Hn.
        -- intros _. split; [|done]. unfold fire. done.
        -- done.
      * split; [|split].
        -- cbn. rewrite Hhk, Hh. split; [done|]. intros [_ Hok].
           apply Hn in Hok. discriminate.
        -- cbn. by rewrite Hhk, Hh.
        -- intros _. cbn [processes emit]. rewrite Hpk, lookup_empty.
           rewrite fire_live by (cbn; by rewrite Hhk).
           cbn [monitors emit]. rewrite Hm, Htake. cbn [st].
           pose proof (verdicts_monitor_resume p o r (set_monitors l (emit (EUncaught e) sk))) as Hv'.
           pose proof (monitor_resume_processes p o r (set_monitors l (emit (EUncaught e) sk))) as Hp'.
           cbn [set_monitors processes trace emit] in Hv', Hp'.
           rewrite Hpk, lookup_empty in Hv', Hp'.
           split; [|exact Hp'].
           rewrite Hv'. cbn [emit trace] in Hv. by rewrite Hv.
Qed.

Lemma race_gives_at_most_one_verdict_witness :
  let p := {| pid := 101; rid := 4 |} in
  let s := run unix daemonA [ANext; ANext; AStatus ok; AFeed (Some modify_batch)] boot in
  verdicts 101 (trace (st (run unix daemonA [AMonitor p ok; ANext] s)))
  = [ExitedOnItsOwn]
  ∧ verdicts 101 (trace (st (run unix daemonA [ANext; AMonitor p ok] s)))
    = [KilledExternally].
Proof.
  intros p s.
  assert (keyed_by_pid (processes (st s))) as Hk.
  { replace (processes (st s)) with (<[101%N := p]> (∅ : gmap N Process))
      by (by vm_compute).
    intros k q H. apply lookup_insert_Some in H as [[<- <-]|[_ H]]; [done|].
    by rewrite lookup_empty in H. }
  destruct (race_gives_at_most_one_verdict unix daemonA p watching [] ok ByReload s)
    as [(Hv & _) (_ & _ & Hv')]; [by vm_compute..|exact Hk|].
  split; [exact Hv|].
  specialize (Hv' ltac:(by vm_compute)).
  assert (processes (st (fire unix daemonA (trigger_action ByReload) s)) !! pid p = None)
    as E by (by vm_compute).
  cbv zeta in Hv'. rewrite E in Hv'. exact (proj1 Hv').
Defined.
